(** * CPE 2.3 name matching: a shallow embedding of [cpe/cpeset2_3.py]

    The development follows the Python module top down: the built-in
    string operations the module calls, the class constants, the class
    methods ([isEvenWildcards], [contains_wildcards], [compareStrings],
    [compare], [compare_wfns], the four set predicates) and the object
    methods ([append], [name_match]).  Python integers are [Z]; Python
    byte strings are [string]; an exception is an explicit outcome. *)

From Stdlib Require Import ZArith String Ascii List Bool Lia.
From stdpp Require Import base gmap strings list fin_maps.

Local Open Scope string_scope.
Local Open Scope Z_scope.

(** ** Outcomes of a call *)

Inductive exn : Type := ValueError | TypeError | KeyError | IndexError.

(** [OutOfFuel] is not a Python outcome: it marks a bounded model of a
    [while] loop that used up its step budget.  [compareStrings_total]
    shows that the budget chosen in [compareStrings] is never used up. *)
Inductive outcome (A : Type) : Type :=
| Ok (a : A)
| Raise (e : exn)
| OutOfFuel.

Arguments Ok {A} a.
Arguments Raise {A} e.
Arguments OutOfFuel {A}.

Definition bind {A B : Type} (m : outcome A) (k : A -> outcome B) : outcome B :=
  match m with
  | Ok a => k a
  | Raise e => Raise e
  | OutOfFuel => OutOfFuel
  end.

Notation "'let!' x ':=' m 'in' k" := (bind m (fun x => k))
  (at level 10, x name, m at level 100, k at level 200).

(** ** Python string built-ins *)

Module Py.

Definition len (s : string) : Z := Z.of_nat (String.length s).

Fixpoint drop (n : nat) (s : string) : string :=
  match n, s with
  | O, _ => s
  | S _, EmptyString => EmptyString
  | S n', String _ s' => drop n' s'
  end.

Fixpoint take (n : nat) (s : string) : string :=
  match n, s with
  | O, _ => EmptyString
  | S _, EmptyString => EmptyString
  | S n', String c s' => String c (take n' s')
  end.

(** Index adjustment of a slice bound: a negative bound counts from the
    end, and the result is clamped to [0 .. n]. *)
Definition adjust (n i : Z) : Z :=
  if i <? 0 then Z.max 0 (i + n) else Z.min i n.

(** [s[start:stop]] *)
Definition slice (s : string) (start stop : Z) : string :=
  let a := adjust (len s) start in
  let b := adjust (len s) stop in
  take (Z.to_nat (b - a)) (drop (Z.to_nat a) s).

Definition is_suffix (p s : string) : bool :=
  (String.length p <=? String.length s)%nat
  && String.eqb (drop (String.length s - String.length p) s) p.

(** [s.startswith(p, start, stop)] and [s.endswith(p, start, stop)] for a
    non-empty [p]: the test is made on the window [s[start:stop]]. *)
Definition startswith_in (s p : string) (start stop : Z) : bool :=
  String.prefix p (slice s start stop).

Definition endswith_in (s p : string) (start stop : Z) : bool :=
  is_suffix p (slice s start stop).

(** [s.startswith(p)] and [s.endswith(p)] *)
Definition startswith (s p : string) : bool := String.prefix p s.
Definition endswith (s p : string) : bool := is_suffix p s.

(** [find_from s sub pos]: the lowest position of [sub] in [s], where the
    first character of [s] has position [pos]; [-1] when there is none. *)
Fixpoint find_from (s sub : string) (pos : Z) : Z :=
  if String.prefix sub s then pos
  else match s with
       | EmptyString => -1
       | String _ s' => find_from s' sub (pos + 1)
       end.

(** [s.find(sub, start)] *)
Definition find (s sub : string) (start : Z) : Z :=
  let a := if start <? 0 then Z.max 0 (start + len s) else start in
  if len s <? a then -1 else find_from (drop (Z.to_nat a) s) sub a.

Fixpoint count_char (c : ascii) (s : string) : Z :=
  match s with
  | EmptyString => 0
  | String c' s' => (if Ascii.eqb c' c then 1 else 0) + count_char c s'
  end.

(** [s.count(c, start, stop)] for a one-character [c] *)
Definition count (s : string) (c : ascii) (start stop : Z) : Z :=
  count_char c (slice s start stop).

(** [s[i]]: a negative index counts from the end; out of range raises. *)
Definition getitem (s : string) (i : Z) : outcome ascii :=
  let j := if i <? 0 then i + len s else i in
  if (0 <=? j) && (j <? len s)
  then match String.get (Z.to_nat j) s with
       | Some c => Ok c
       | None => Raise IndexError
       end
  else Raise IndexError.

Definition lower_ascii (c : ascii) : ascii :=
  let n := nat_of_ascii c in
  if ((65 <=? n) && (n <=? 90))%nat then ascii_of_nat (n + 32) else c.

(** [s.lower()] on a byte string *)
Fixpoint lower (s : string) : string :=
  match s with
  | EmptyString => EmptyString
  | String c s' => String (lower_ascii c) (lower s')
  end.

End Py.

(** ** Constants *)

Definition LOGICAL_VALUE_SUPERSET : Z := 1.
Definition LOGICAL_VALUE_SUBSET : Z := 2.
Definition LOGICAL_VALUE_EQUAL : Z := 3.
Definition LOGICAL_VALUE_DISJOINT : Z := 4.
Definition LOGICAL_VALUE_UNDEFINED : Z := 5.

(** The five values a comparison may return. *)
Definition is_relation (r : Z) : Prop :=
  r = LOGICAL_VALUE_SUPERSET \/ r = LOGICAL_VALUE_SUBSET
  \/ r = LOGICAL_VALUE_EQUAL \/ r = LOGICAL_VALUE_DISJOINT
  \/ r = LOGICAL_VALUE_UNDEFINED.

(** Modelled from the spec: the wildcard characters of [CPE2_3_WFN]
    ([WILDCARD_MULTI], [WILDCARD_ONE]), which section 3 of the
    specification gives as the asterisk and the question mark. *)
Definition WILDCARD_MULTI : string := "*".
Definition WILDCARD_ONE : string := "?".

(** Modelled from the spec: the ANY and NOT-APPLICABLE markers of
    [CPE2_3_WFN] (section 6), under the texts that the doctests of
    [is_string] and [compare] give them. *)
Definition VALUE_ANY_VALUE : string := "ANY".
Definition VALUE_NOT_APPLICABLE : string := "NA".

(** ** Escape parity and wildcard detection *)

(** The loop of [isEvenWildcards]; [idx] is the loop variable, so that
    [O] is the exit [idx > 0] false. *)
Fixpoint isEvenWildcards_loop (str : string) (idx : nat) (result : Z)
  : outcome Z :=
  match idx with
  | O => Ok result
  | S idx' =>
      let! c := Py.getitem str (Z.of_nat idx - 1) in
      if Ascii.eqb c "\"
      then isEvenWildcards_loop str idx' (result + 1)
      else Ok result
  end.

Definition isEvenWildcards (str : string) (idx : Z) : outcome bool :=
  let! result := isEvenWildcards_loop str (Z.to_nat idx) 0 in
  let isEvenNumber := (result mod 2) =? 0 in
  Ok isEvenNumber.

(** One of the two blocks of [contains_wildcards], for the character
    [ch]: [true] stands for its [return True], [false] for falling
    through to what follows. *)
Definition wildcard_block (s : string) (ch : string) : outcome bool :=
  let idx := Py.find s ch 0 in
  if negb (idx =? -1) then
    if idx =? 0 then Ok true
    else
      let! c := Py.getitem s (idx - 1) in
      if negb (Ascii.eqb c "\") then Ok true else Ok false
  else Ok false.

Definition contains_wildcards (s : string) : outcome bool :=
  let! r := wildcard_block s "*" in
  if r then Ok true
  else
    let! r := wildcard_block s "?" in
    if r then Ok true else Ok false.

(** ** The string matcher *)

(** First loop of [compareStrings].  [n] counts the positions left
    before [start] reaches [len(source)]. *)
Fixpoint leading_ones (n : nat) (source : string) (start begins : Z)
  : Z * Z :=
  match n with
  | O => (start, begins)
  | S n' =>
      if (start <? Py.len source)
         && Py.startswith_in source WILDCARD_ONE start start
      then leading_ones n' source (start + 1) (begins + 1)
      else (start, begins)
  end.

(** Second loop of [compareStrings]; [n] is the variable [end]. *)
Fixpoint trailing_ones (n : nat) (source : string) (ends : Z)
  : outcome (Z * Z) :=
  match n with
  | O => Ok (0, ends)
  | S n' =>
      let end_ := Z.of_nat n in
      if Py.endswith_in source WILDCARD_ONE (end_ - 1) (end_ - 1) then
        let! b := isEvenWildcards source (end_ - 1) in
        if b then trailing_ones n' source (ends + 1)
        else Ok (end_, ends)
      else Ok (end_, ends)
  end.

(** Third loop of [compareStrings], with a step budget. *)
Fixpoint search (fuel : nat) (target source : string) (begins ends : Z)
  (index leftover : Z) : outcome Z :=
  if leftover >? 0 then
    match fuel with
    | O => OutOfFuel
    | S fuel' =>
        let index := Py.find target source (index + 1) in
        if index =? -1 then Ok LOGICAL_VALUE_DISJOINT
        else
          let escapes := Py.count target "\" 0 index in
          if (index >? 0) && negb (begins =? -1)
             && (begins <? index - escapes)
          then Ok LOGICAL_VALUE_DISJOINT
          else
            let escapes := Py.count target "\" (index + 1) (Py.len target) in
            let leftover := Py.len target - index - escapes - Py.len source in
            if (leftover >? 0) && (negb (ends =? -1) && (leftover >? ends))
            then search fuel' target source begins ends index leftover
            else Ok LOGICAL_VALUE_SUPERSET
    end
  else Ok LOGICAL_VALUE_DISJOINT.

Definition compareStrings (source target : string) : outcome Z :=
  let start := 0 in
  let end_ := Py.len source in
  let begins := 0 in
  let ends := 0 in
  let '(start, begins) :=
    if Py.startswith source WILDCARD_MULTI then (1, -1)
    else leading_ones (String.length source) source start begins in
  let! r := (if Py.endswith source WILDCARD_MULTI then
               let! b := isEvenWildcards source (end_ - 1) in
               if b then Ok (end_ - 1, -1)
               else trailing_ones (String.length source) source ends
             else trailing_ones (String.length source) source ends) in
  let '(end_, ends) := r in
  let source := Py.slice source start end_ in
  let index := -1 in
  let leftover := Py.len target in
  search (S (S (String.length target))) target source begins ends index leftover.

(** ** The identifier collaborator *)

(** Modelled from the spec: the identifier classes ([CPE], [CPE2_3],
    [CPE2_3_WFN]) are not part of this module.  The module reads four
    members of an identifier: its version tag, its style, its string
    form, and the accessor [get_value], which by section 3 of the
    specification gives a value for every attribute key. *)
Record CPE : Type := {
  version : string;
  style : string;
  str : string;
  get_value : string -> string
}.

(** The object state of [CPESet2_3]: the list [self.K]. *)
Record CPESet2_3 : Type := { K : list CPE }.

(** [CPESet2_3()] *)
Definition init : CPESet2_3 := {| K := [] |}.

(** [len(s)] *)
Definition size (self : CPESet2_3) : Z := Z.of_nat (length (K self)).

(** An object method: it takes the object state and gives the state it
    leaves together with its outcome.  An exception leaves the state as
    it is at the [raise]: nothing is rolled back. *)
Definition method (A : Type) : Type := CPESet2_3 -> CPESet2_3 * outcome A.

Definition ret {A : Type} (a : A) : method A := fun self => (self, Ok a).
Definition raise {A : Type} (e : exn) : method A := fun self => (self, Raise e).

Definition and_then {A B : Type} (m : method A) (k : A -> method B) : method B :=
  fun self =>
    match m self with
    | (self', Ok a) => k a self'
    | (self', Raise e) => (self', Raise e)
    | (self', OutOfFuel) => (self', OutOfFuel)
    end.

Notation "'do!' x ':=' m 'in' k" := (and_then m (fun x => k))
  (at level 10, x name, m at level 100, k at level 200).

(** [self.K] *)
Definition read_K : method (list CPE) := fun self => (self, Ok (K self)).

(** [self.K.append(cpe)] *)
Definition K_append (cpe : CPE) : method unit :=
  fun self => ({| K := K self ++ [cpe] |}, Ok tt).

(** [result_dict[att]] *)
Definition dict_get (d : gmap string Z) (att : string) : outcome Z :=
  match d !! att with
  | Some v => Ok v
  | None => Raise KeyError
  end.

Section Matching.

(** The constants of the collaborator whose values the module does not
    show: the unset marker, the attribute keys, the version tag and the
    style the collection accepts.  A marker that is no string at all
    behaves as a text that no value has. *)
Variable VALUE_NULL : string.
Variable wfn_part_keys : list string.
Variable VERSION_2_3 : string.
Variable STYLE_WFN : string.

Definition is_string (arg : string) : bool :=
  let isAny := String.eqb arg VALUE_ANY_VALUE in
  let isNa := String.eqb arg VALUE_NOT_APPLICABLE in
  let isNull := String.eqb arg VALUE_NULL in
  negb (isAny || isNa || isNull).

Definition compare (source target : string) : outcome Z :=
  let source := if is_string source then Py.lower source else source in
  let target := if is_string target then Py.lower target else target in
  let! undefined :=
    (if is_string target then contains_wildcards target else Ok false) in
  if undefined then Ok LOGICAL_VALUE_UNDEFINED
  else if String.eqb source target then Ok LOGICAL_VALUE_EQUAL
  else if String.eqb source VALUE_ANY_VALUE || String.eqb source VALUE_NULL
  then Ok LOGICAL_VALUE_SUPERSET
  else if String.eqb target VALUE_ANY_VALUE || String.eqb target VALUE_NULL
  then Ok LOGICAL_VALUE_SUBSET
  else
    let isSourceNA := String.eqb source VALUE_NOT_APPLICABLE in
    let isTargetNA := String.eqb target VALUE_NOT_APPLICABLE in
    if isSourceNA || isTargetNA then Ok LOGICAL_VALUE_DISJOINT
    else compareStrings source target.

(** The value [compare] works on after its first two statements: a
    string value is lower-cased, a logical value is left as it is. *)
Definition folded (arg : string) : string :=
  if is_string arg then Py.lower arg else arg.

(** The guard of [compare] on a target: a string (after folding) on which
    [contains_wildcards] answers [True]. *)
Definition flags_wildcards (target : string) : bool :=
  is_string (folded target)
  && match contains_wildcards (folded target) with
     | Ok b => b
     | _ => false
     end.

(** A folded value that is the ANY marker or the unset marker. *)
Definition any_or_unset (v : string) : Prop :=
  v = VALUE_ANY_VALUE \/ v = VALUE_NULL.

(** The loop of [compare_wfns]; [result] is the dictionary built so far. *)
Fixpoint compare_wfns_loop (keys : list string) (source target : CPE)
  (result : gmap string Z) : outcome (gmap string Z) :=
  match keys with
  | [] => Ok result
  | att :: keys' =>
      let! r := compare (get_value source att) (get_value target att) in
      compare_wfns_loop keys' source target (<[att := r]> result)
  end.

Definition compare_wfns (source target : CPE) : outcome (gmap string Z) :=
  compare_wfns_loop wfn_part_keys source target ∅.

Fixpoint cpe_disjoint_loop (keys : list string) (result_dict : gmap string Z)
  : outcome bool :=
  match keys with
  | [] => Ok false
  | att :: keys' =>
      let! result := dict_get result_dict att in
      let isDisjoint := result =? LOGICAL_VALUE_DISJOINT in
      if isDisjoint then Ok true
      else cpe_disjoint_loop keys' result_dict
  end.

Definition cpe_disjoint (source target : CPE) : outcome bool :=
  let! result_dict := compare_wfns source target in
  cpe_disjoint_loop wfn_part_keys result_dict.

Fixpoint cpe_equal_loop (keys : list string) (result_dict : gmap string Z)
  : outcome bool :=
  match keys with
  | [] => Ok true
  | att :: keys' =>
      let! result := dict_get result_dict att in
      let isEqual := result =? LOGICAL_VALUE_EQUAL in
      if negb isEqual then Ok false
      else cpe_equal_loop keys' result_dict
  end.

Definition cpe_equal (source target : CPE) : outcome bool :=
  let! result_dict := compare_wfns source target in
  cpe_equal_loop wfn_part_keys result_dict.

Fixpoint cpe_subset_loop (keys : list string) (result_dict : gmap string Z)
  : outcome bool :=
  match keys with
  | [] => Ok true
  | att :: keys' =>
      let! result := dict_get result_dict att in
      let isSubset := result =? LOGICAL_VALUE_SUBSET in
      let isEqual := result =? LOGICAL_VALUE_EQUAL in
      if negb isSubset && negb isEqual then Ok false
      else cpe_subset_loop keys' result_dict
  end.

Definition cpe_subset (source target : CPE) : outcome bool :=
  let! result_dict := compare_wfns source target in
  cpe_subset_loop wfn_part_keys result_dict.

Fixpoint cpe_superset_loop (keys : list string) (result_dict : gmap string Z)
  : outcome bool :=
  match keys with
  | [] => Ok true
  | att :: keys' =>
      let! result := dict_get result_dict att in
      let isSuperset := result =? LOGICAL_VALUE_SUPERSET in
      let isEqual := result =? LOGICAL_VALUE_EQUAL in
      if negb isSuperset && negb isEqual then Ok false
      else cpe_superset_loop keys' result_dict
  end.

Definition cpe_superset (source target : CPE) : outcome bool :=
  let! result_dict := compare_wfns source target in
  cpe_superset_loop wfn_part_keys result_dict.

(** The duplicate scan of [append]: [true] stands for its [return None]. *)
Fixpoint already_stored (cpe : CPE) (ks : list CPE) : bool :=
  match ks with
  | [] => false
  | k :: ks' =>
      if String.eqb (str cpe) (str k) then true
      else already_stored cpe ks'
  end.

Definition append (cpe : CPE) : method unit :=
  do! _ := (if negb (String.eqb (version cpe) VERSION_2_3)
            then raise ValueError else ret tt) in
  do! _ := (if negb (String.eqb (style cpe) STYLE_WFN)
            then raise TypeError else ret tt) in
  do! ks := read_K in
  if already_stored cpe ks then ret tt
  else K_append cpe.

Fixpoint name_match_loop (wfn : CPE) (ks : list CPE) : outcome bool :=
  match ks with
  | [] => Ok false
  | N :: ks' =>
      let! matched := cpe_superset wfn N in
      if matched then Ok true
      else name_match_loop wfn ks'
  end.

Definition name_match (self : CPESet2_3) (wfn : CPE) : outcome bool :=
  name_match_loop wfn (K self).

End Matching.


(** ** The wording of the specification, for comparison *)

Module Spec.

(** An unquoted wildcard at position [i] of [s]: an asterisk or a question
    mark that an even number of backslashes precedes (the escape-parity
    rule, checked with the module's own [isEvenWildcards]). *)
Definition unquoted_wildcard_at (s : string) (i : nat) : bool :=
  match String.get i s with
  | Some c =>
      (Ascii.eqb c "*" || Ascii.eqb c "?")
      && match isEvenWildcards s (Z.of_nat i) with
         | Ok b => b
         | _ => false
         end
  | None => false
  end.

(** [s] contains an unquoted wildcard anywhere. *)
Definition has_unquoted_wildcard (s : string) : bool :=
  existsb (unquoted_wildcard_at s) (seq 0 (String.length s)).

(** The slack a stripped wildcard affix leaves on its side of the match. *)
Inductive slack : Type := Unbounded | AtMost (n : Z).

Definition within (k : Z) (sl : slack) : bool :=
  match sl with
  | Unbounded => true
  | AtMost n => k <=? n
  end.

(** Length of the run of question marks [s] starts with. *)
Fixpoint leading_run (s : string) : nat :=
  match s with
  | String c s' => if Ascii.eqb c "?" then S (leading_run s') else O
  | EmptyString => O
  end.

(** Length of the run of unquoted question marks that ends just before
    position [n] of [s]. *)
Fixpoint trailing_run (n : nat) (s : string) : nat :=
  match n with
  | O => O
  | S n' =>
      match String.get n' s with
      | Some c =>
          if Ascii.eqb c "?" && unquoted_wildcard_at s n'
          then S (trailing_run n' s) else O
      | None => O
      end
  end.

(** Step 1: where the inner literal starts, and the prefix slack. *)
Definition strip_prefix (source : string) : nat * slack :=
  if Py.startswith source "*" then (1%nat, Unbounded)
  else let n := leading_run source in (n, AtMost (Z.of_nat n)).

(** Step 2: where the inner literal ends, and the suffix slack. *)
Definition strip_suffix (source : string) : nat * slack :=
  let n := String.length source in
  if Py.endswith source "*" && unquoted_wildcard_at source (n - 1)
  then ((n - 1)%nat, Unbounded)
  else let r := trailing_run n source in ((n - r)%nat, AtMost (Z.of_nat r)).

(** Unescaped characters of [target] before position [i], and after an
    occurrence of length [m] at position [i]. *)
Definition before (target : string) (i : nat) : Z :=
  Z.of_nat i - Py.count_char "\" (Py.take i target).

Definition after (target : string) (i m : nat) : Z :=
  Z.of_nat (String.length target - (i + m))
  - Py.count_char "\" (Py.drop (i + m) target).

(** Steps 3 to 6: [Superset] when the inner literal occurs in [target] at
    a position within both slacks, [Disjoint] otherwise. *)
Definition compareStrings (source target : string) : Z :=
  let '(start, pre) := strip_prefix source in
  let '(stop, suf) := strip_suffix source in
  let inner := Py.take (stop - start) (Py.drop start source) in
  let fits (i : nat) :=
    String.prefix inner (Py.drop i target)
    && within (before target i) pre
    && within (after target i (String.length inner)) suf in
  if existsb fits (seq 0 (S (String.length target)))
  then LOGICAL_VALUE_SUPERSET
  else LOGICAL_VALUE_DISJOINT.

End Spec.

(** ** Sample identifiers *)

Module Sample.

(** The attribute names of a well-formed name in CPE 2.3. *)
Definition keys : list string :=
  ["part"; "vendor"; "product"; "version"; "update"; "edition";
   "language"; "sw_edition"; "target_sw"; "target_hw"; "other"].

Fixpoint assoc (l : list (string * string)) (att : string) : string :=
  match l with
  | [] => VALUE_ANY_VALUE
  | (k, v) :: l' => if String.eqb k att then v else assoc l' att
  end.

(** A version 2.3 name in WFN style with the given attribute values;
    an attribute that is not listed has the value ANY. *)
Definition wfn (text : string) (l : list (string * string)) : CPE :=
  {| version := "2.3"; style := "WFN"; str := text; get_value := assoc l |}.

Definition ie_8_0_6 : CPE :=
  wfn "wfn:[part=a, vendor=microsoft, product=internet_explorer, version=8\.0\.6, update=beta]"
    [("part", "a"); ("vendor", "microsoft"); ("product", "internet_explorer");
     ("version", "8\.0\.6"); ("update", "beta")].

Definition ie_8_0_any : CPE :=
  wfn "wfn:[part=a, vendor=microsoft, product=internet_explorer, version=8\.0*]"
    [("part", "a"); ("vendor", "microsoft"); ("product", "internet_explorer");
     ("version", "8\.0*")].

Definition windows_8 : CPE :=
  wfn "wfn:[part=o, vendor=microsoft, product=windows, version=8\.0\*, update=sp2]"
    [("part", "o"); ("vendor", "microsoft"); ("product", "windows");
     ("version", "8\.0\*"); ("update", "sp2")].

Definition microsoft_app : CPE :=
  wfn "wfn:[part=a, vendor=microsoft]"
    [("part", "a"); ("vendor", "microsoft")].

Definition hp_compact : CPE :=
  wfn "wfn:[part=h, vendor=hp, product=compact]"
    [("part", "h"); ("vendor", "hp"); ("product", "compact")].

(** A name of another version and another style. *)
Definition uri_2_2 : CPE :=
  {| version := "2.2"; style := "URI"; str := "cpe:/a:hp:compact";
     get_value := fun _ => VALUE_ANY_VALUE |}.

End Sample.

(** ** Further members of the class, and notions used to state properties *)

(** [l[i]] on a Python list: a negative index counts from the end; out
    of range raises. *)
Definition list_getitem {A : Type} (l : list A) (i : Z) : outcome A :=
  let j := if i <? 0 then i + Z.of_nat (length l) else i in
  if (0 <=? j) && (j <? Z.of_nat (length l))
  then match l !! Z.to_nat j with
       | Some x => Ok x
       | None => Raise IndexError
       end
  else Raise IndexError.

(** [CPESet2_3.__getitem__], for an integer index. *)
Definition __getitem__ (self : CPESet2_3) (i : Z) : outcome CPE :=
  list_getitem (K self) i.

(** A run of [n] backslashes. *)
Fixpoint backslashes (n : nat) : string :=
  match n with
  | O => EmptyString
  | S n' => String "\" (backslashes n')
  end.

(** What a collection built by [append] looks like: every member has the
    accepted version tag and style, and no two members have the same
    string form. *)
Definition well_formed (VERSION_2_3 STYLE_WFN : string) (self : CPESet2_3) : Prop :=
  (forall k, k ∈ K self -> version k = VERSION_2_3 /\ style k = STYLE_WFN)
  /\ NoDup (str <$> K self).

(** * Properties of the embedding *)

(** ** Outcomes *)

Lemma bind_Ok_inv {A B : Type} (m : outcome A) (k : A -> outcome B) (b : B) :
  bind m k = Ok b -> exists a, m = Ok a /\ k a = Ok b.
Proof. destruct m as [a | e |]; simpl; intros H; try discriminate; eauto. Qed.

(** ** The string built-ins *)

Lemma len_nonneg (s : string) : 0 <= Py.len s.
Proof. unfold Py.len. lia. Qed.

Lemma length_drop (n : nat) (s : string) :
  String.length (Py.drop n s) = (String.length s - n)%nat.
Proof.
  revert s. induction n as [| n IH]; intros [| c s]; simpl; auto with arith.
Qed.

Lemma slice_empty_window (s : string) (k : Z) : Py.slice s k k = "".
Proof.
  unfold Py.slice. rewrite Z.sub_diag. reflexivity.
Qed.

(** The window [start .. start] is empty, and no empty window starts or
    ends with a question mark: both wildcard loops of [compareStrings]
    test such a window. *)
Lemma startswith_in_empty_window (s : string) (k : Z) :
  Py.startswith_in s WILDCARD_ONE k k = false.
Proof. unfold Py.startswith_in. rewrite slice_empty_window. reflexivity. Qed.

Lemma endswith_in_empty_window (s : string) (k : Z) :
  Py.endswith_in s WILDCARD_ONE k k = false.
Proof. unfold Py.endswith_in. rewrite slice_empty_window. reflexivity. Qed.

Lemma find_from_eq (s sub : string) (pos : Z) :
  Py.find_from s sub pos =
  if String.prefix sub s then pos
  else match s with
       | EmptyString => -1
       | String _ s' => Py.find_from s' sub (pos + 1)
       end.
Proof. destruct s; reflexivity. Qed.

Lemma find_from_range (s sub : string) (pos : Z) :
  Py.find_from s sub pos = -1
  \/ pos <= Py.find_from s sub pos <= pos + Py.len s.
Proof.
  revert pos. induction s as [| c s IH]; intros pos; rewrite find_from_eq.
  - destruct (String.prefix sub ""); [right | left]; unfold Py.len; simpl; lia.
  - destruct (String.prefix sub (String c s)).
    + right. unfold Py.len. simpl String.length. lia.
    + destruct (IH (pos + 1)) as [-> | H]; [now left | right].
      unfold Py.len in *. simpl String.length. lia.
Qed.

Lemma find_range (t sub : string) (start : Z) :
  0 <= start ->
  Py.find t sub start = -1
  \/ start <= Py.find t sub start <= Py.len t.
Proof.
  intros Hs. unfold Py.find.
  destruct (Z.ltb_spec start 0) as [? | _]; [lia |].
  destruct (Z.ltb_spec (Py.len t) start) as [? | Hle]; [now left |].
  destruct (find_from_range (Py.drop (Z.to_nat start) t) sub start) as [-> | H];
    [now left | right].
  unfold Py.len in *. rewrite length_drop in H. lia.
Qed.

Lemma get_in_range (s : string) (n : nat) :
  (n < String.length s)%nat -> exists c, String.get n s = Some c.
Proof.
  revert n. induction s as [| c s IH]; intros n Hn; simpl in Hn; [lia |].
  destruct n as [| n]; simpl; [eauto |]. apply IH. lia.
Qed.

Lemma getitem_in_range (s : string) (i : Z) :
  0 <= i < Py.len s -> exists c, Py.getitem s i = Ok c.
Proof.
  intros Hi. unfold Py.getitem.
  destruct (Z.ltb_spec i 0) as [? | _]; [lia |].
  destruct (Z.leb_spec 0 i) as [_ | ?]; [| lia].
  destruct (Z.ltb_spec i (Py.len s)) as [_ | ?]; [| lia]. simpl.
  destruct (get_in_range s (Z.to_nat i)) as [c ->]; [unfold Py.len in Hi; lia |].
  eauto.
Qed.

(** A lower-cased character is no capital letter. *)
Lemma lower_ascii_not_A (c : ascii) : Py.lower_ascii c <> "A"%char.
Proof. destruct c as [[] [] [] [] [] [] [] []]; vm_compute; discriminate. Qed.

Lemma lower_ascii_not_N (c : ascii) : Py.lower_ascii c <> "N"%char.
Proof. destruct c as [[] [] [] [] [] [] [] []]; vm_compute; discriminate. Qed.

Lemma lower_not_ANY (s : string) : Py.lower s <> VALUE_ANY_VALUE.
Proof.
  destruct s as [| c s]; simpl; [discriminate |].
  intros H. injection H as H _. exact (lower_ascii_not_A c H).
Qed.

Lemma lower_not_NA (s : string) : Py.lower s <> VALUE_NOT_APPLICABLE.
Proof.
  destruct s as [| c s]; simpl; [discriminate |].
  intros H. injection H as H _. exact (lower_ascii_not_N c H).
Qed.

(** ** Escape parity and wildcard detection never raise in range *)

Lemma isEvenWildcards_loop_total (str : string) (idx : nat) (result : Z) :
  (idx <= String.length str)%nat ->
  exists n, isEvenWildcards_loop str idx result = Ok n.
Proof.
  revert result. induction idx as [| idx IH]; intros result Hle; simpl; [eauto |].
  destruct (getitem_in_range str (Z.of_nat (S idx) - 1)) as [c Hc];
    [unfold Py.len; lia |].
  rewrite Hc. simpl. destruct (Ascii.eqb c "\"); [apply IH; lia | eauto].
Qed.

Lemma isEvenWildcards_total (str : string) (idx : Z) :
  idx <= Py.len str -> exists b, isEvenWildcards str idx = Ok b.
Proof.
  intros Hle. unfold isEvenWildcards.
  destruct (isEvenWildcards_loop_total str (Z.to_nat idx) 0) as [n ->];
    [unfold Py.len in Hle; lia |].
  simpl. eauto.
Qed.

Lemma wildcard_block_total (s ch : string) :
  exists b, wildcard_block s ch = Ok b.
Proof.
  unfold wildcard_block.
  destruct (find_range s ch 0) as [-> | H]; [lia | simpl; eauto |].
  destruct (Z.eqb_spec (Py.find s ch 0) (-1)); simpl; [eauto |].
  destruct (Z.eqb_spec (Py.find s ch 0) 0); [eauto |].
  destruct (getitem_in_range s (Py.find s ch 0 - 1)) as [c ->]; [lia |].
  simpl. destruct (Ascii.eqb c "\"); simpl; eauto.
Qed.

Lemma contains_wildcards_total (s : string) :
  exists b, contains_wildcards s = Ok b.
Proof.
  unfold contains_wildcards.
  destruct (wildcard_block_total s "*") as [[] ->]; simpl; [eauto |].
  destruct (wildcard_block_total s "?") as [[] ->]; simpl; eauto.
Qed.

(** ** The string matcher *)

(** Neither question-mark loop of [compareStrings] ever runs its body:
    its [startswith] / [endswith] test looks at an empty window. *)
Lemma leading_ones_strips_nothing (n : nat) (source : string) (start begins : Z) :
  leading_ones n source start begins = (start, begins).
Proof.
  destruct n as [| n]; simpl; [reflexivity |].
  rewrite startswith_in_empty_window, andb_false_r. reflexivity.
Qed.

Lemma trailing_ones_strips_nothing (n : nat) (source : string) (ends : Z) :
  trailing_ones n source ends = Ok (Z.of_nat n, ends).
Proof.
  destruct n as [| n]; [reflexivity |].
  cbn [trailing_ones]. rewrite endswith_in_empty_window. reflexivity.
Qed.

Lemma search_eq (fuel : nat) (target source : string)
  (begins ends index leftover : Z) :
  search fuel target source begins ends index leftover =
  if leftover >? 0 then
    match fuel with
    | O => OutOfFuel
    | S fuel' =>
        let index := Py.find target source (index + 1) in
        if index =? -1 then Ok LOGICAL_VALUE_DISJOINT
        else
          let escapes := Py.count target "\" 0 index in
          if (index >? 0) && negb (begins =? -1)
             && (begins <? index - escapes)
          then Ok LOGICAL_VALUE_DISJOINT
          else
            let escapes := Py.count target "\" (index + 1) (Py.len target) in
            let leftover := Py.len target - index - escapes - Py.len source in
            if (leftover >? 0) && (negb (ends =? -1) && (leftover >? ends))
            then search fuel' target source begins ends index leftover
            else Ok LOGICAL_VALUE_SUPERSET
    end
  else Ok LOGICAL_VALUE_DISJOINT.
Proof. destruct fuel; reflexivity. Qed.

(** The scan visits each start position of [target] at most once, so a
    budget of one step per position, and one more, is never used up. *)
Lemma search_total (fuel : nat) (target source : string)
  (begins ends index leftover : Z) :
  -1 <= index <= Py.len target ->
  Py.len target - index + 1 <= Z.of_nat fuel ->
  search fuel target source begins ends index leftover = Ok LOGICAL_VALUE_SUPERSET
  \/ search fuel target source begins ends index leftover = Ok LOGICAL_VALUE_DISJOINT.
Proof.
  revert index leftover.
  induction fuel as [| fuel IH]; intros index leftover Hidx Hfuel;
    rewrite search_eq; destruct (leftover >? 0); auto; [lia |].
  cbv zeta.
  destruct (find_range target source (index + 1)) as [-> | Hfound]; [lia | auto |].
  destruct (Z.eqb_spec (Py.find target source (index + 1)) (-1)); auto.
  destruct (_ && _ && _); auto.
  destruct (_ && _); auto.
  apply IH; lia.
Qed.

Theorem compareStrings_total (source target : string) :
  compareStrings source target = Ok LOGICAL_VALUE_SUPERSET
  \/ compareStrings source target = Ok LOGICAL_VALUE_DISJOINT.
Proof.
  unfold compareStrings.
  rewrite leading_ones_strips_nothing, trailing_ones_strips_nothing.
  destruct (Py.startswith source WILDCARD_MULTI);
    destruct (Py.endswith source WILDCARD_MULTI); cbn [bind];
    try (destruct (isEvenWildcards_total source (Py.len source - 1)) as [[] ->];
         [lia | |]; cbn [bind]);
    apply search_total; pose proof (len_nonneg target);
    unfold Py.len in *; lia.
Qed.

(** What the unstripped question mark costs: a source that starts with a
    question mark matches no target in which no question mark occurs. *)
Lemma count_char_nonneg (c : ascii) (t : string) : 0 <= Py.count_char c t.
Proof.
  induction t as [| a t IH]; cbn [Py.count_char];
    [lia | destruct (Ascii.eqb a c); lia].
Qed.

Lemma prefix_head_absent (c : ascii) (rest t : string) :
  Py.count_char c t = 0 -> String.prefix (String c rest) t = false.
Proof.
  destruct t as [| c' t]; [reflexivity |]. cbn [Py.count_char String.prefix].
  destruct (ascii_dec c c') as [<- | Hne]; [| reflexivity].
  rewrite Ascii.eqb_refl. pose proof (count_char_nonneg c t). lia.
Qed.

Lemma find_from_head_absent (c : ascii) (rest t : string) (pos : Z) :
  Py.count_char c t = 0 -> Py.find_from t (String c rest) pos = -1.
Proof.
  revert pos. induction t as [| a t IH]; intros pos H; rewrite find_from_eq.
  - reflexivity.
  - rewrite (prefix_head_absent c rest _ H). apply IH.
    cbn [Py.count_char] in H. pose proof (count_char_nonneg c t).
    destruct (Ascii.eqb a c); lia.
Qed.

Lemma find_head_absent (c : ascii) (rest t : string) :
  Py.count_char c t = 0 -> Py.find t (String c rest) 0 = -1.
Proof.
  intros H. unfold Py.find. change (0 <? 0) with false. cbv iota.
  destruct (Py.len t <? 0); [reflexivity |].
  change (Z.to_nat 0) with O. cbn [Py.drop]. apply find_from_head_absent, H.
Qed.

Lemma search_head_absent (fuel : nat) (target rest : string) (c : ascii)
  (begins ends : Z) :
  Py.count_char c target = 0 ->
  search (S fuel) target (String c rest) begins ends (-1) (Py.len target)
  = Ok LOGICAL_VALUE_DISJOINT.
Proof.
  intros H. rewrite search_eq. destruct (Py.len target >? 0); [| reflexivity].
  cbv zeta. change (-1 + 1) with 0. rewrite (find_head_absent c rest target H).
  reflexivity.
Qed.

Theorem compareStrings_leading_question_mark (rest target : string) :
  Py.count_char "?" target = 0 ->
  compareStrings (String "?" rest) target = Ok LOGICAL_VALUE_DISJOINT.
Proof.
  intros Hno. unfold compareStrings.
  rewrite leading_ones_strips_nothing, trailing_ones_strips_nothing.
  change (Py.startswith (String "?" rest) WILDCARD_MULTI) with false. cbv iota.
  assert (Hslice : forall e, 1 <= e <= Py.len (String "?" rest) ->
            exists inner, Py.slice (String "?" rest) 0 e = String "?" inner).
  { intros e He. unfold Py.slice, Py.adjust.
    destruct (Z.ltb_spec 0 0); [lia |]. destruct (Z.ltb_spec e 0); [lia |].
    rewrite (Z.min_l 0) by lia. rewrite (Z.min_l e) by lia.
    rewrite Z.sub_0_r. cbn [Z.to_nat Py.drop].
    destruct (Z.to_nat e) as [| k] eqn:Hk; [lia |]. cbn [Py.take]. eauto. }
  assert (Hlen : 1 <= Py.len (String "?" rest))
    by (unfold Py.len; cbn [String.length]; lia).
  destruct (Py.endswith (String "?" rest) WILDCARD_MULTI) eqn:Hends.
  - destruct (isEvenWildcards_total (String "?" rest) (Py.len (String "?" rest) - 1))
      as [[] ->]; [lia | |]; cbn [bind].
    + assert (Hrest : 2 <= Py.len (String "?" rest)).
      { destruct rest; [discriminate Hends |].
        unfold Py.len. cbn [String.length]. lia. }
      destruct (Hslice (Py.len (String "?" rest) - 1)) as [inner ->]; [lia |].
      apply search_head_absent, Hno.
    + destruct (Hslice (Z.of_nat (String.length (String "?" rest)))) as [inner ->];
        [unfold Py.len in *; lia |].
      apply search_head_absent, Hno.
  - cbn [bind].
    destruct (Hslice (Z.of_nat (String.length (String "?" rest)))) as [inner ->];
      [unfold Py.len in *; lia |].
    apply search_head_absent, Hno.
Qed.

(** ** The value comparator *)

Section Comparator.

Variable VALUE_NULL : string.

Lemma is_string_ANY : is_string VALUE_NULL VALUE_ANY_VALUE = false.
Proof. reflexivity. Qed.

Lemma folded_ANY : folded VALUE_NULL VALUE_ANY_VALUE = VALUE_ANY_VALUE.
Proof. reflexivity. Qed.

Lemma is_string_NULL : is_string VALUE_NULL VALUE_NULL = false.
Proof.
  unfold is_string. rewrite (String.eqb_refl VALUE_NULL), !orb_true_r.
  reflexivity.
Qed.

Lemma is_string_false (arg : string) :
  is_string VALUE_NULL arg = false ->
  arg = VALUE_ANY_VALUE \/ arg = VALUE_NOT_APPLICABLE \/ arg = VALUE_NULL.
Proof.
  unfold is_string.
  destruct (String.eqb_spec arg VALUE_ANY_VALUE); auto.
  destruct (String.eqb_spec arg VALUE_NOT_APPLICABLE); auto.
  destruct (String.eqb_spec arg VALUE_NULL); auto. discriminate.
Qed.

Lemma folded_is_ANY (arg : string) :
  folded VALUE_NULL arg = VALUE_ANY_VALUE -> arg = VALUE_ANY_VALUE.
Proof.
  unfold folded. destruct (is_string VALUE_NULL arg); [| auto].
  intros H. destruct (lower_not_ANY arg H).
Qed.

(** [compare] as a chain of tests on the folded values; the guard never
    raises, because [contains_wildcards] does not. *)
Lemma compare_eq (source target : string) :
  compare VALUE_NULL source target =
  let s := folded VALUE_NULL source in
  let t := folded VALUE_NULL target in
  if flags_wildcards VALUE_NULL target then Ok LOGICAL_VALUE_UNDEFINED
  else if String.eqb s t then Ok LOGICAL_VALUE_EQUAL
  else if String.eqb s VALUE_ANY_VALUE || String.eqb s VALUE_NULL
  then Ok LOGICAL_VALUE_SUPERSET
  else if String.eqb t VALUE_ANY_VALUE || String.eqb t VALUE_NULL
  then Ok LOGICAL_VALUE_SUBSET
  else if String.eqb s VALUE_NOT_APPLICABLE || String.eqb t VALUE_NOT_APPLICABLE
  then Ok LOGICAL_VALUE_DISJOINT
  else compareStrings s t.
Proof.
  unfold compare, flags_wildcards. fold (folded VALUE_NULL source).
  fold (folded VALUE_NULL target). cbv zeta.
  destruct (contains_wildcards_total (folded VALUE_NULL target)) as [b ->].
  destruct (is_string VALUE_NULL (folded VALUE_NULL target)), b; reflexivity.
Qed.

(** [compare] is total: it returns one of the five relation values. *)
Theorem compare_total (source target : string) :
  exists r, compare VALUE_NULL source target = Ok r /\ is_relation r.
Proof.
  rewrite compare_eq. cbv zeta. unfold is_relation.
  repeat match goal with
         | |- context [if ?c then _ else _] => destruct c
         end; eauto 10.
  destruct (compareStrings_total (folded VALUE_NULL source)
              (folded VALUE_NULL target)) as [-> | ->]; eauto 10.
Qed.

(** The only way to [Undefined] is the guard on the target. *)
Lemma compare_undefined_iff (source target : string) :
  compare VALUE_NULL source target = Ok LOGICAL_VALUE_UNDEFINED
  <-> flags_wildcards VALUE_NULL target = true.
Proof.
  rewrite compare_eq. cbv zeta.
  destruct (flags_wildcards VALUE_NULL target); [tauto |].
  split; [| discriminate].
  repeat match goal with
         | |- context [if ?c then _ else _] => destruct c
         end; try discriminate.
  destruct (compareStrings_total (folded VALUE_NULL source)
              (folded VALUE_NULL target)) as [-> | ->]; discriminate.
Qed.

Lemma compare_equal_iff (source target : string) :
  compare VALUE_NULL source target = Ok LOGICAL_VALUE_EQUAL
  <-> flags_wildcards VALUE_NULL target = false
      /\ folded VALUE_NULL source = folded VALUE_NULL target.
Proof.
  rewrite compare_eq. cbv zeta.
  destruct (flags_wildcards VALUE_NULL target); [split; [| intros []]; discriminate |].
  destruct (String.eqb_spec (folded VALUE_NULL source) (folded VALUE_NULL target));
    [tauto |].
  split; [| tauto].
  repeat match goal with
         | |- context [if ?c then _ else _] => destruct c
         end; try discriminate.
  destruct (compareStrings_total (folded VALUE_NULL source)
              (folded VALUE_NULL target)) as [-> | ->]; discriminate.
Qed.

Lemma any_or_unset_eqb (v : string) :
  String.eqb v VALUE_ANY_VALUE || String.eqb v VALUE_NULL = true
  <-> any_or_unset VALUE_NULL v.
Proof.
  unfold any_or_unset.
  destruct (String.eqb_spec v VALUE_ANY_VALUE), (String.eqb_spec v VALUE_NULL);
    simpl; intuition discriminate.
Qed.

Lemma compare_subset_iff (source target : string) :
  compare VALUE_NULL source target = Ok LOGICAL_VALUE_SUBSET
  <-> flags_wildcards VALUE_NULL target = false
      /\ folded VALUE_NULL source <> folded VALUE_NULL target
      /\ ~ any_or_unset VALUE_NULL (folded VALUE_NULL source)
      /\ any_or_unset VALUE_NULL (folded VALUE_NULL target).
Proof.
  rewrite compare_eq. cbv zeta. rewrite <- !any_or_unset_eqb.
  destruct (flags_wildcards VALUE_NULL target);
    [split; [| intros []]; discriminate |].
  destruct (String.eqb_spec (folded VALUE_NULL source) (folded VALUE_NULL target));
    [split; [discriminate | tauto] |].
  destruct (_ || _); [split; [discriminate | intros (_ & _ & H & _); now destruct H] |].
  destruct (_ || _); [intuition discriminate |].
  split; [| intros (_ & _ & _ & H); discriminate].
  destruct (_ || _); [discriminate |].
  destruct (compareStrings_total (folded VALUE_NULL source)
              (folded VALUE_NULL target)) as [-> | ->]; discriminate.
Qed.

End Comparator.

(** ** The identifier comparator and the four predicates *)

Section Identifier.

Variable VALUE_NULL : string.
Variable wfn_part_keys : list string.

Lemma compare_wfns_loop_spec (keys : list string) (source target : CPE)
  (d0 : gmap string Z) :
  exists d,
    compare_wfns_loop VALUE_NULL keys source target d0 = Ok d
    /\ forall att,
         (att ∈ keys ->
          exists r, compare VALUE_NULL (get_value source att) (get_value target att) = Ok r
                    /\ d !! att = Some r)
         /\ (att ∉ keys -> d !! att = d0 !! att).
Proof.
  revert d0. induction keys as [| a keys IH]; intros d0.
  - exists d0. split; [reflexivity |]. intros att. split; [| reflexivity].
    intros H. apply elem_of_nil in H. destruct H.
  - destruct (compare_total VALUE_NULL (get_value source a) (get_value target a))
      as (r & Hr & _).
    cbn [compare_wfns_loop]. rewrite Hr. cbn [bind].
    destruct (IH (<[a := r]> d0)) as (d & Hd & Hspec).
    exists d. split; [exact Hd |]. intros att. split.
    + intros Hin. destruct (decide (att ∈ keys)) as [Hk | Hk].
      * apply Hspec, Hk.
      * apply elem_of_cons in Hin as [-> | Hin]; [| contradiction].
        exists r. split; [exact Hr |].
        destruct (Hspec a) as [_ H2]. rewrite (H2 Hk). apply lookup_insert_eq.
    + intros Hnot. apply not_elem_of_cons in Hnot as [Hne Hk].
      destruct (Hspec att) as [_ H2]. rewrite (H2 Hk).
      apply lookup_insert_ne. congruence.
Qed.

(** [compare_wfns] returns a dictionary that holds, under every key of
    the key set, what [compare] returns for the two values of that key. *)
Lemma compare_wfns_spec (source target : CPE) :
  exists d,
    compare_wfns VALUE_NULL wfn_part_keys source target = Ok d
    /\ forall att, att ∈ wfn_part_keys ->
         exists r, compare VALUE_NULL (get_value source att) (get_value target att) = Ok r
                   /\ d !! att = Some r.
Proof.
  destruct (compare_wfns_loop_spec wfn_part_keys source target ∅) as (d & Hd & H).
  exists d. split; [exact Hd |]. intros att. apply H.
Qed.

Lemma compare_wfns_lookup (source target : CPE) (d : gmap string Z) (att : string) (r : Z) :
  compare_wfns VALUE_NULL wfn_part_keys source target = Ok d ->
  att ∈ wfn_part_keys ->
  d !! att = Some r
  <-> compare VALUE_NULL (get_value source att) (get_value target att) = Ok r.
Proof.
  intros Hd Hin. destruct (compare_wfns_spec source target) as (d' & Hd' & H).
  rewrite Hd in Hd'. injection Hd' as <-.
  destruct (H att Hin) as (r' & Hr' & Hl). rewrite Hr', Hl.
  split; intros E; injection E as ->; reflexivity.
Qed.

(** Proof step shared by the four loops: read the dictionary at the head
    key, then decide the loop's test on what was read. *)
Ltac read_head Hall a :=
  let r := fresh "r" in
  let Hr := fresh "Hr" in
  destruct (Hall a) as [r Hr]; [apply elem_of_cons; now left |];
  unfold dict_get; rewrite Hr; cbn [bind].

Lemma cpe_disjoint_loop_spec (keys : list string) (d : gmap string Z) :
  (forall att, att ∈ keys -> is_Some (d !! att)) ->
  exists b,
    cpe_disjoint_loop keys d = Ok b
    /\ (b = true <-> exists att, att ∈ keys /\ d !! att = Some LOGICAL_VALUE_DISJOINT).
Proof.
  induction keys as [| a keys IH]; intros Hall.
  - exists false. split; [reflexivity |]. split; [discriminate |].
    intros (att & H & _). apply elem_of_nil in H. destruct H.
  - cbn [cpe_disjoint_loop]. read_head Hall a.
    destruct (Z.eqb_spec r LOGICAL_VALUE_DISJOINT) as [-> | Hne].
    + exists true. split; [reflexivity |]. split; [| reflexivity].
      intros _. exists a. split; [apply elem_of_cons; now left | exact Hr].
    + destruct IH as (b & Hb & Hiff);
        [intros att Hin; apply Hall, elem_of_cons; now right |].
      exists b. split; [exact Hb |]. rewrite Hiff. split.
      * intros (att & Hin & Hd). exists att.
        split; [apply elem_of_cons; now right | exact Hd].
      * intros (att & Hin & Hd). apply elem_of_cons in Hin as [-> | Hin].
        -- rewrite Hr in Hd. congruence.
        -- exists att. split; assumption.
Qed.

Lemma cpe_equal_loop_spec (keys : list string) (d : gmap string Z) :
  (forall att, att ∈ keys -> is_Some (d !! att)) ->
  exists b,
    cpe_equal_loop keys d = Ok b
    /\ (b = true <-> forall att, att ∈ keys -> d !! att = Some LOGICAL_VALUE_EQUAL).
Proof.
  induction keys as [| a keys IH]; intros Hall.
  - exists true. split; [reflexivity |]. split; [| reflexivity].
    intros _ att H. apply elem_of_nil in H. destruct H.
  - cbn [cpe_equal_loop]. read_head Hall a.
    destruct (Z.eqb_spec r LOGICAL_VALUE_EQUAL) as [-> | Hne]; cbn [negb].
    + destruct IH as (b & Hb & Hiff);
        [intros att Hin; apply Hall, elem_of_cons; now right |].
      exists b. split; [exact Hb |]. rewrite Hiff. split.
      * intros H att Hin. apply elem_of_cons in Hin as [-> | Hin]; auto.
      * intros H att Hin. apply H, elem_of_cons. now right.
    + exists false. split; [reflexivity |]. split; [discriminate |].
      intros H. specialize (H a). rewrite Hr in H.
      enough (Some r = Some LOGICAL_VALUE_EQUAL) by congruence.
      apply H, elem_of_cons. now left.
Qed.

Lemma cpe_subset_loop_spec (keys : list string) (d : gmap string Z) :
  (forall att, att ∈ keys -> is_Some (d !! att)) ->
  exists b,
    cpe_subset_loop keys d = Ok b
    /\ (b = true <->
        forall att, att ∈ keys ->
          d !! att = Some LOGICAL_VALUE_SUBSET \/ d !! att = Some LOGICAL_VALUE_EQUAL).
Proof.
  induction keys as [| a keys IH]; intros Hall.
  - exists true. split; [reflexivity |]. split; [| reflexivity].
    intros _ att H. apply elem_of_nil in H. destruct H.
  - cbn [cpe_subset_loop]. read_head Hall a.
    destruct (Z.eqb_spec r LOGICAL_VALUE_SUBSET) as [Hs | Hs];
      destruct (Z.eqb_spec r LOGICAL_VALUE_EQUAL) as [He | He]; cbn [negb andb];
      try (destruct IH as (b & Hb & Hiff);
           [intros att Hin; apply Hall, elem_of_cons; now right |];
           exists b; split; [exact Hb |]; rewrite Hiff; split;
           [ intros H att Hin; apply elem_of_cons in Hin as [-> | Hin];
             [rewrite Hr; subst r; auto | auto]
           | intros H att Hin; apply H, elem_of_cons; now right ]).
    exists false. split; [reflexivity |]. split; [discriminate |].
    intros H. destruct (H a) as [E | E]; [apply elem_of_cons; now left | |];
      rewrite Hr in E; congruence.
Qed.

Lemma cpe_superset_loop_spec (keys : list string) (d : gmap string Z) :
  (forall att, att ∈ keys -> is_Some (d !! att)) ->
  exists b,
    cpe_superset_loop keys d = Ok b
    /\ (b = true <->
        forall att, att ∈ keys ->
          d !! att = Some LOGICAL_VALUE_SUPERSET \/ d !! att = Some LOGICAL_VALUE_EQUAL).
Proof.
  induction keys as [| a keys IH]; intros Hall.
  - exists true. split; [reflexivity |]. split; [| reflexivity].
    intros _ att H. apply elem_of_nil in H. destruct H.
  - cbn [cpe_superset_loop]. read_head Hall a.
    destruct (Z.eqb_spec r LOGICAL_VALUE_SUPERSET) as [Hs | Hs];
      destruct (Z.eqb_spec r LOGICAL_VALUE_EQUAL) as [He | He]; cbn [negb andb];
      try (destruct IH as (b & Hb & Hiff);
           [intros att Hin; apply Hall, elem_of_cons; now right |];
           exists b; split; [exact Hb |]; rewrite Hiff; split;
           [ intros H att Hin; apply elem_of_cons in Hin as [-> | Hin];
             [rewrite Hr; subst r; auto | auto]
           | intros H att Hin; apply H, elem_of_cons; now right ]).
    exists false. split; [reflexivity |]. split; [discriminate |].
    intros H. destruct (H a) as [E | E]; [apply elem_of_cons; now left | |];
      rewrite Hr in E; congruence.
Qed.

Lemma compare_wfns_defined (source target : CPE) (d : gmap string Z) :
  compare_wfns VALUE_NULL wfn_part_keys source target = Ok d ->
  forall att, att ∈ wfn_part_keys -> is_Some (d !! att).
Proof.
  intros Hd att Hin. destruct (compare_wfns_spec source target) as (d' & Hd' & H).
  rewrite Hd in Hd'. injection Hd' as <-.
  destruct (H att Hin) as (r & _ & Hl). eauto.
Qed.

(** The predicates in terms of [compare] on the values of each key. *)
Lemma cpe_equal_true_iff (source target : CPE) :
  cpe_equal VALUE_NULL wfn_part_keys source target = Ok true
  <-> forall att, att ∈ wfn_part_keys ->
        compare VALUE_NULL (get_value source att) (get_value target att)
        = Ok LOGICAL_VALUE_EQUAL.
Proof.
  unfold cpe_equal.
  destruct (compare_wfns_spec source target) as (d & Hd & _). rewrite Hd. cbn [bind].
  destruct (cpe_equal_loop_spec wfn_part_keys d (compare_wfns_defined _ _ _ Hd))
    as (b & -> & Hiff).
  split.
  - intros E. injection E as ->. intros att Hin.
    apply (compare_wfns_lookup _ _ _ _ _ Hd Hin). now apply Hiff.
  - intros H. f_equal. apply Hiff. intros att Hin.
    apply (compare_wfns_lookup _ _ _ _ _ Hd Hin). auto.
Qed.

Lemma cpe_subset_true_iff (source target : CPE) :
  cpe_subset VALUE_NULL wfn_part_keys source target = Ok true
  <-> forall att, att ∈ wfn_part_keys ->
        compare VALUE_NULL (get_value source att) (get_value target att)
        = Ok LOGICAL_VALUE_SUBSET
        \/ compare VALUE_NULL (get_value source att) (get_value target att)
           = Ok LOGICAL_VALUE_EQUAL.
Proof.
  unfold cpe_subset.
  destruct (compare_wfns_spec source target) as (d & Hd & _). rewrite Hd. cbn [bind].
  destruct (cpe_subset_loop_spec wfn_part_keys d (compare_wfns_defined _ _ _ Hd))
    as (b & -> & Hiff).
  split.
  - intros E. injection E as ->. intros att Hin.
    rewrite <- !(compare_wfns_lookup _ _ _ _ _ Hd Hin). now apply Hiff.
  - intros H. f_equal. apply Hiff. intros att Hin.
    rewrite !(compare_wfns_lookup _ _ _ _ _ Hd Hin). auto.
Qed.

Lemma cpe_superset_true_iff (source target : CPE) :
  cpe_superset VALUE_NULL wfn_part_keys source target = Ok true
  <-> forall att, att ∈ wfn_part_keys ->
        compare VALUE_NULL (get_value source att) (get_value target att)
        = Ok LOGICAL_VALUE_SUPERSET
        \/ compare VALUE_NULL (get_value source att) (get_value target att)
           = Ok LOGICAL_VALUE_EQUAL.
Proof.
  unfold cpe_superset.
  destruct (compare_wfns_spec source target) as (d & Hd & _). rewrite Hd. cbn [bind].
  destruct (cpe_superset_loop_spec wfn_part_keys d (compare_wfns_defined _ _ _ Hd))
    as (b & -> & Hiff).
  split.
  - intros E. injection E as ->. intros att Hin.
    rewrite <- !(compare_wfns_lookup _ _ _ _ _ Hd Hin). now apply Hiff.
  - intros H. f_equal. apply Hiff. intros att Hin.
    rewrite !(compare_wfns_lookup _ _ _ _ _ Hd Hin). auto.
Qed.

Lemma cpe_superset_total (source target : CPE) :
  exists b, cpe_superset VALUE_NULL wfn_part_keys source target = Ok b.
Proof.
  unfold cpe_superset.
  destruct (compare_wfns_spec source target) as (d & Hd & _). rewrite Hd. cbn [bind].
  destruct (cpe_superset_loop_spec wfn_part_keys d (compare_wfns_defined _ _ _ Hd))
    as (b & -> & _). eauto.
Qed.

Lemma cpe_subset_total (source target : CPE) :
  exists b, cpe_subset VALUE_NULL wfn_part_keys source target = Ok b.
Proof.
  unfold cpe_subset.
  destruct (compare_wfns_spec source target) as (d & Hd & _). rewrite Hd. cbn [bind].
  destruct (cpe_subset_loop_spec wfn_part_keys d (compare_wfns_defined _ _ _ Hd))
    as (b & -> & _). eauto.
Qed.

Lemma cpe_equal_total (source target : CPE) :
  exists b, cpe_equal VALUE_NULL wfn_part_keys source target = Ok b.
Proof.
  unfold cpe_equal.
  destruct (compare_wfns_spec source target) as (d & Hd & _). rewrite Hd. cbn [bind].
  destruct (cpe_equal_loop_spec wfn_part_keys d (compare_wfns_defined _ _ _ Hd))
    as (b & -> & _). eauto.
Qed.

End Identifier.

(** ** Doctests of the module *)

Example compareStrings_doctests :
  compareStrings "and" "not" = Ok LOGICAL_VALUE_DISJOINT
  /\ compareStrings "mac*" "not" = Ok LOGICAL_VALUE_DISJOINT
  /\ compareStrings "mac*" "mac" = Ok LOGICAL_VALUE_SUPERSET.
Proof. repeat split; reflexivity. Qed.

Example contains_wildcards_doctests :
  contains_wildcards "foo" = Ok false
  /\ contains_wildcards "foo\?" = Ok false
  /\ contains_wildcards "foo*" = Ok true
  /\ contains_wildcards "\*bar" = Ok false
  /\ contains_wildcards "?bar" = Ok true
  /\ contains_wildcards "8\.\*" = Ok false.
Proof. repeat split; reflexivity. Qed.

Example isEvenWildcards_doctests :
  isEvenWildcards "lin\ux" 4 = Ok false
  /\ isEvenWildcards "lin\ux" 5 = Ok true.
Proof. split; reflexivity. Qed.

Example compare_doctests :
  compare "" "a" "a" = Ok LOGICAL_VALUE_EQUAL
  /\ compare "" "Adobe" "ANY" = Ok LOGICAL_VALUE_SUBSET
  /\ compare "" "ANY" "Reader" = Ok LOGICAL_VALUE_SUPERSET
  /\ compare "" "9.*" "9.3.2" = Ok LOGICAL_VALUE_SUPERSET
  /\ compare "" "ANY" "NA" = Ok LOGICAL_VALUE_SUPERSET
  /\ compare "" "PalmOS" "NA" = Ok LOGICAL_VALUE_DISJOINT
  /\ compare "" "8\.\*" "8\.\*" = Ok LOGICAL_VALUE_EQUAL.
Proof. repeat split; reflexivity. Qed.

Example name_match_doctests :
  name_match "" Sample.keys
    {| K := [Sample.ie_8_0_6; Sample.windows_8] |} Sample.ie_8_0_any = Ok true
  /\ name_match "" Sample.keys
       {| K := [Sample.ie_8_0_6; Sample.windows_8] |} Sample.hp_compact = Ok false.
Proof. split; vm_compute; reflexivity. Qed.

(** ** The string matcher and the wildcard test against their wording *)

(** C1.  [compareStrings] is to strip a run of leading question marks and a
    run of trailing unquoted question marks from the source and to count
    each run as slack.  The code strips neither: on a source with a
    leading or a trailing question mark it looks for the question mark
    itself in the target and answers [Disjoint], where the matcher as
    worded answers [Superset]. *)
Theorem compareStrings_keeps_question_marks :
  compareStrings "?ac" "mac" = Ok LOGICAL_VALUE_DISJOINT
  /\ Spec.compareStrings "?ac" "mac" = LOGICAL_VALUE_SUPERSET
  /\ compareStrings "8.?" "8.1" = Ok LOGICAL_VALUE_DISJOINT
  /\ Spec.compareStrings "8.?" "8.1" = LOGICAL_VALUE_SUPERSET.
Proof. repeat split; vm_compute; reflexivity. Qed.

(** C3.  [contains_wildcards] is to answer [True] when an unquoted
    asterisk or question mark stands anywhere in the string.  The code
    looks at the first asterisk and the first question mark only, and at
    one character before each: it misses the trailing wildcard of
    [\*nix*], and the wildcard of [a\\*] that follows an escaped
    backslash. *)
Theorem contains_wildcards_misses_unquoted :
  Spec.has_unquoted_wildcard "\*nix*" = true
  /\ contains_wildcards "\*nix*" = Ok false
  /\ Spec.has_unquoted_wildcard "a\\*" = true
  /\ contains_wildcards "a\\*" = Ok false.
Proof. repeat split; vm_compute; reflexivity. Qed.

(** C2.  A target with an unquoted wildcard is to give [Undefined]
    whatever the source is.  For the target [\*nix*], whose last
    character is an unquoted asterisk, [compare] with the source ANY
    returns [Superset], whatever the text of the unset marker. *)
Theorem compare_misses_unquoted_target (VALUE_NULL : string) :
  Spec.has_unquoted_wildcard "\*nix*" = true
  /\ compare VALUE_NULL VALUE_ANY_VALUE "\*nix*" = Ok LOGICAL_VALUE_SUPERSET.
Proof.
  split; [vm_compute; reflexivity |].
  rewrite compare_eq. cbv zeta.
  assert (Hf : folded VALUE_NULL "\*nix*" = "\*nix*")
    by (unfold folded; destruct (is_string VALUE_NULL "\*nix*"); reflexivity).
  unfold flags_wildcards. rewrite Hf, folded_ANY.
  replace (contains_wildcards "\*nix*") with (Ok (A := bool) false)
    by (vm_compute; reflexivity).
  rewrite andb_false_r. reflexivity.
Qed.

(** ** The set predicates and the match engine *)

Ltac relation_values :=
  unfold LOGICAL_VALUE_SUPERSET, LOGICAL_VALUE_SUBSET, LOGICAL_VALUE_EQUAL,
    LOGICAL_VALUE_DISJOINT, LOGICAL_VALUE_UNDEFINED in *.

Section Aggregation.

Variable VALUE_NULL : string.
Variable wfn_part_keys : list string.

(** C4.  [compare_wfns] returns a dictionary [d] that holds the result of
    [compare] under every attribute key, and over it: [cpe_disjoint]
    returns true iff some relation is [Disjoint]; [cpe_equal] iff every
    relation is [Equal]; [cpe_subset] iff every relation is [Subset] or
    [Equal]; [cpe_superset] iff every relation is [Superset] or [Equal].
    Hence, when some relation is [Undefined] and none is [Disjoint], the
    four predicates all return false. *)
Theorem set_relation_predicates (source target : CPE) :
  exists (d : gmap string Z) (isDisjoint isEqual isSubset isSuperset : bool),
    compare_wfns VALUE_NULL wfn_part_keys source target = Ok d
    /\ (forall att, att ∈ wfn_part_keys ->
          exists r,
            compare VALUE_NULL (get_value source att) (get_value target att) = Ok r
            /\ d !! att = Some r)
    /\ cpe_disjoint VALUE_NULL wfn_part_keys source target = Ok isDisjoint
    /\ cpe_equal VALUE_NULL wfn_part_keys source target = Ok isEqual
    /\ cpe_subset VALUE_NULL wfn_part_keys source target = Ok isSubset
    /\ cpe_superset VALUE_NULL wfn_part_keys source target = Ok isSuperset
    /\ (isDisjoint = true <->
        exists att, att ∈ wfn_part_keys /\ d !! att = Some LOGICAL_VALUE_DISJOINT)
    /\ (isEqual = true <->
        forall att, att ∈ wfn_part_keys -> d !! att = Some LOGICAL_VALUE_EQUAL)
    /\ (isSubset = true <->
        forall att, att ∈ wfn_part_keys ->
          d !! att = Some LOGICAL_VALUE_SUBSET \/ d !! att = Some LOGICAL_VALUE_EQUAL)
    /\ (isSuperset = true <->
        forall att, att ∈ wfn_part_keys ->
          d !! att = Some LOGICAL_VALUE_SUPERSET \/ d !! att = Some LOGICAL_VALUE_EQUAL)
    /\ ((exists att, att ∈ wfn_part_keys /\ d !! att = Some LOGICAL_VALUE_UNDEFINED) ->
        (forall att, att ∈ wfn_part_keys -> d !! att <> Some LOGICAL_VALUE_DISJOINT) ->
        isDisjoint = false /\ isEqual = false
        /\ isSubset = false /\ isSuperset = false).
Proof.
  destruct (compare_wfns_spec VALUE_NULL wfn_part_keys source target)
    as (d & Hd & Hlook).
  pose proof (compare_wfns_defined _ _ _ _ _ Hd) as Hdef.
  destruct (cpe_disjoint_loop_spec wfn_part_keys d Hdef) as (bd & Hbd & Hd_iff).
  destruct (cpe_equal_loop_spec wfn_part_keys d Hdef) as (be & Hbe & He_iff).
  destruct (cpe_subset_loop_spec wfn_part_keys d Hdef) as (bs & Hbs & Hs_iff).
  destruct (cpe_superset_loop_spec wfn_part_keys d Hdef) as (bp & Hbp & Hp_iff).
  exists d, bd, be, bs, bp.
  unfold cpe_disjoint, cpe_equal, cpe_subset, cpe_superset.
  rewrite Hd. cbn [bind].
  repeat (split; [first [assumption | reflexivity] |]).
  intros (att & Hin & Hu) Hnone. repeat split.
  - destruct bd; [| reflexivity].
    destruct (proj1 Hd_iff eq_refl) as (a & Ha & Hda). destruct (Hnone a Ha Hda).
  - destruct be; [| reflexivity].
    pose proof (proj1 He_iff eq_refl att Hin) as E. rewrite Hu in E.
    relation_values. discriminate.
  - destruct bs; [| reflexivity].
    destruct (proj1 Hs_iff eq_refl att Hin) as [E | E]; rewrite Hu in E;
      relation_values; discriminate.
  - destruct bp; [| reflexivity].
    destruct (proj1 Hp_iff eq_refl att Hin) as [E | E]; rewrite Hu in E;
      relation_values; discriminate.
Qed.

(** C5.  [name_match] returns true iff the collection has a member [M] of
    which the candidate is a superset ([cpe_superset]); it goes through
    the members in stored order and answers at the first such member:
    it returns true iff the collection splits into members for which the
    predicate is false, then one for which it is true, then the rest. *)
Theorem name_match_first_superset (self : CPESet2_3) (wfn : CPE) :
  exists b,
    name_match VALUE_NULL wfn_part_keys self wfn = Ok b
    /\ (b = true <->
        exists M, M ∈ K self
                  /\ cpe_superset VALUE_NULL wfn_part_keys wfn M = Ok true)
    /\ (b = true <->
        exists ks1 M ks2,
          K self = (ks1 ++ M :: ks2)%list
          /\ (forall N, N ∈ ks1 ->
                cpe_superset VALUE_NULL wfn_part_keys wfn N = Ok false)
          /\ cpe_superset VALUE_NULL wfn_part_keys wfn M = Ok true).
Proof.
  unfold name_match. destruct self as [ks]. cbn [K].
  induction ks as [| N ks IH].
  - exists false. split; [reflexivity |]. split; (split; [discriminate |]).
    + intros (M & H & _). apply elem_of_nil in H. destruct H.
    + intros (ks1 & M & ks2 & H & _). destruct ks1; discriminate.
  - cbn [name_match_loop].
    destruct (cpe_superset_total VALUE_NULL wfn_part_keys wfn N) as [[] HN];
      rewrite HN; cbn [bind].
    + exists true. split; [reflexivity |]. split; (split; [intros _ | reflexivity]).
      * exists N. split; [apply elem_of_cons; now left | exact HN].
      * exists [], N, ks. split; [reflexivity |]. split; [| exact HN].
        intros M H. apply elem_of_nil in H. destruct H.
    + destruct IH as (b & Hb & Hany & Hfirst). exists b.
      split; [exact Hb |]. split; [rewrite Hany | rewrite Hfirst]; split.
      * intros (M & Hin & HM). exists M.
        split; [apply elem_of_cons; now right | exact HM].
      * intros (M & Hin & HM). apply elem_of_cons in Hin as [-> | Hin].
        -- rewrite HN in HM. discriminate.
        -- exists M. split; assumption.
      * intros (ks1 & M & ks2 & -> & Hbefore & HM).
        exists (N :: ks1), M, ks2. split; [reflexivity |]. split; [| exact HM].
        intros N' Hin. apply elem_of_cons in Hin as [-> | Hin]; auto.
      * intros (ks1 & M & ks2 & Heq & Hbefore & HM).
        destruct ks1 as [| N' ks1]; simpl in Heq; injection Heq as -> ->.
        -- rewrite HN in HM. discriminate.
        -- exists ks1, M, ks2. split; [reflexivity |]. split; [| exact HM].
           intros N0 Hin. apply Hbefore, elem_of_cons. now right.
Qed.

End Aggregation.

(** A pair with an [Undefined] relation and no [Disjoint] one: the stored
    name has the version [8\.0*], the source the version [8\.0\.6]. *)
Example undefined_pair_all_false :
  cpe_disjoint "" Sample.keys Sample.ie_8_0_6 Sample.ie_8_0_any = Ok false
  /\ cpe_equal "" Sample.keys Sample.ie_8_0_6 Sample.ie_8_0_any = Ok false
  /\ cpe_subset "" Sample.keys Sample.ie_8_0_6 Sample.ie_8_0_any = Ok false
  /\ cpe_superset "" Sample.keys Sample.ie_8_0_6 Sample.ie_8_0_any = Ok false
  /\ compare "" (get_value Sample.ie_8_0_6 "version")
       (get_value Sample.ie_8_0_any "version") = Ok LOGICAL_VALUE_UNDEFINED.
Proof. repeat split; vm_compute; reflexivity. Qed.

(** ** Comparing with ANY, with oneself, and in both directions *)

Section Relations.

Variable VALUE_NULL : string.
Variable wfn_part_keys : list string.

Lemma flags_wildcards_ANY : flags_wildcards VALUE_NULL VALUE_ANY_VALUE = false.
Proof. reflexivity. Qed.

Lemma flags_wildcards_folded (v w : string) :
  folded VALUE_NULL v = folded VALUE_NULL w ->
  flags_wildcards VALUE_NULL v = flags_wildcards VALUE_NULL w.
Proof. unfold flags_wildcards. intros ->. reflexivity. Qed.

Lemma flags_wildcards_marker (v : string) :
  any_or_unset VALUE_NULL (folded VALUE_NULL v) ->
  flags_wildcards VALUE_NULL v = false.
Proof.
  unfold flags_wildcards. intros [-> | ->];
    [rewrite is_string_ANY | rewrite is_string_NULL]; reflexivity.
Qed.

Lemma compare_superset_inv (source target : string) :
  compare VALUE_NULL source target = Ok LOGICAL_VALUE_SUPERSET ->
  flags_wildcards VALUE_NULL target = false
  /\ folded VALUE_NULL source <> folded VALUE_NULL target.
Proof.
  rewrite compare_eq. cbv zeta.
  destruct (flags_wildcards VALUE_NULL target); [discriminate |].
  destruct (String.eqb_spec (folded VALUE_NULL source) (folded VALUE_NULL target));
    [discriminate | auto].
Qed.

(** A target that [contains_wildcards] flags gives [Undefined] against
    ANY, whatever the text of the unset marker (other than that target). *)
Lemma compare_any_wildcard_literal :
  VALUE_NULL <> "8\.*" ->
  compare VALUE_NULL VALUE_ANY_VALUE "8\.*" = Ok LOGICAL_VALUE_UNDEFINED.
Proof.
  intros Hne. apply compare_undefined_iff. unfold flags_wildcards, folded.
  assert (Hs : is_string VALUE_NULL "8\.*" = true).
  { unfold is_string. destruct (String.eqb_spec "8\.*" VALUE_NULL); [congruence |].
    reflexivity. }
  rewrite Hs. change (Py.lower "8\.*") with "8\.*". rewrite Hs. reflexivity.
Qed.

(** C6, as the code has it.  For a value [x] that is not the ANY marker
    and that [compare] does not fold to the unset marker:
    [compare(x, ANY)] is [Subset]; [compare(ANY, x)] is [Superset] unless
    [x] is a string that [contains_wildcards] flags, and then it is
    [Undefined]. *)
Theorem compare_with_any (x : string) :
  x <> VALUE_ANY_VALUE ->
  folded VALUE_NULL x <> VALUE_NULL ->
  compare VALUE_NULL x VALUE_ANY_VALUE = Ok LOGICAL_VALUE_SUBSET
  /\ compare VALUE_NULL VALUE_ANY_VALUE x
     = Ok (if flags_wildcards VALUE_NULL x
           then LOGICAL_VALUE_UNDEFINED else LOGICAL_VALUE_SUPERSET).
Proof.
  intros Hany Hnull. split.
  - apply compare_subset_iff. rewrite folded_ANY.
    split; [apply flags_wildcards_ANY |]. split; [| split].
    + intros H. apply folded_is_ANY in H. contradiction.
    + intros [H | H]; [apply folded_is_ANY in H |]; contradiction.
    + now left.
  - rewrite compare_eq. cbv zeta.
    destruct (flags_wildcards VALUE_NULL x); [reflexivity |].
    rewrite folded_ANY.
    destruct (String.eqb_spec VALUE_ANY_VALUE (folded VALUE_NULL x)) as [E | _];
      [symmetry in E; apply folded_is_ANY in E; contradiction |].
    reflexivity.
Qed.

(** C7, as the code has it.  [cpe_equal(x, x)] returns true iff no
    attribute value of [x] is a string that [contains_wildcards] flags;
    it returns false when one is. *)
Theorem cpe_equal_self (x : CPE) :
  exists b,
    cpe_equal VALUE_NULL wfn_part_keys x x = Ok b
    /\ (b = true <->
        forall att, att ∈ wfn_part_keys ->
          flags_wildcards VALUE_NULL (get_value x att) = false).
Proof.
  destruct (cpe_equal_total VALUE_NULL wfn_part_keys x x) as [b Hb].
  exists b. split; [exact Hb |]. split.
  - intros ->. intros att Hin.
    apply (proj1 (cpe_equal_true_iff _ _ _ _) Hb att) in Hin.
    now apply compare_equal_iff in Hin.
  - intros H. enough (E : cpe_equal VALUE_NULL wfn_part_keys x x = Ok true)
      by (rewrite Hb in E; now injection E).
    apply cpe_equal_true_iff. intros att Hin. apply compare_equal_iff. auto.
Qed.

(** C8, as the code has it.  When every relation of [compare_wfns(x, y)]
    is [Superset] or [Equal], [cpe_superset(x, y)] returns true; and
    [cpe_subset(y, x)] returns true iff, at every attribute whose relation
    is [Superset], the folded value of [x] is the ANY or the unset marker
    and the folded value of [y] is neither. *)
Theorem superset_and_converse_subset (x y : CPE) (d : gmap string Z) :
  compare_wfns VALUE_NULL wfn_part_keys x y = Ok d ->
  (forall att, att ∈ wfn_part_keys ->
     d !! att = Some LOGICAL_VALUE_SUPERSET \/ d !! att = Some LOGICAL_VALUE_EQUAL) ->
  cpe_superset VALUE_NULL wfn_part_keys x y = Ok true
  /\ (cpe_subset VALUE_NULL wfn_part_keys y x = Ok true <->
      forall att, att ∈ wfn_part_keys ->
        d !! att = Some LOGICAL_VALUE_SUPERSET ->
        any_or_unset VALUE_NULL (folded VALUE_NULL (get_value x att))
        /\ ~ any_or_unset VALUE_NULL (folded VALUE_NULL (get_value y att))).
Proof.
  intros Hd Hall. split.
  - apply cpe_superset_true_iff. intros att Hin.
    rewrite <- !(compare_wfns_lookup _ _ _ _ _ _ _ Hd Hin). auto.
  - rewrite cpe_subset_true_iff. split.
    + intros H att Hin Hsup.
      apply (compare_wfns_lookup _ _ _ _ _ _ _ Hd Hin) in Hsup.
      apply compare_superset_inv in Hsup as [_ Hne].
      destruct (H att Hin) as [E | E].
      * apply compare_subset_iff in E. tauto.
      * apply compare_equal_iff in E as [_ E]. congruence.
    + intros H att Hin. destruct (Hall att Hin) as [Hsup | Heq].
      * left. destruct (H att Hin Hsup) as [Hx Hy].
        apply (compare_wfns_lookup _ _ _ _ _ _ _ Hd Hin) in Hsup.
        apply compare_superset_inv in Hsup as [_ Hne].
        apply compare_subset_iff.
        split; [now apply flags_wildcards_marker |]. auto.
      * right. apply (compare_wfns_lookup _ _ _ _ _ _ _ Hd Hin) in Heq.
        apply compare_equal_iff in Heq as [Hf E].
        apply compare_equal_iff. split; [| auto].
        rewrite (flags_wildcards_folded _ _ E). exact Hf.
Qed.

End Relations.

(** C6, where [compare] of ANY with a value is not [Superset]: the
    literal [8\.*] is neither ANY nor unset, and [compare] of ANY with it
    is [Undefined] (the unset marker taken as the empty string here;
    [compare_any_wildcard_literal] has every other text). *)
Lemma compare_any_wildcard_target :
  "8\.*" <> VALUE_ANY_VALUE
  /\ folded "" "8\.*" <> ""
  /\ compare "" VALUE_ANY_VALUE "8\.*" = Ok LOGICAL_VALUE_UNDEFINED
  /\ LOGICAL_VALUE_UNDEFINED <> LOGICAL_VALUE_SUPERSET.
Proof. split; [discriminate |]. split; [discriminate |]. split; [reflexivity | discriminate]. Qed.

(** C6 at the value [Reader], which has no wildcard. *)
Lemma compare_with_any_witness :
  compare "" "Reader" VALUE_ANY_VALUE = Ok LOGICAL_VALUE_SUBSET
  /\ compare "" VALUE_ANY_VALUE "Reader" = Ok LOGICAL_VALUE_SUPERSET.
Proof. apply (compare_with_any "" "Reader"); vm_compute; discriminate. Defined.

(** C7, an identifier that is not equal to itself: the version of
    [ie_8_0_any] is [8\.0*]. *)
Lemma cpe_equal_self_wildcard :
  cpe_equal "" Sample.keys Sample.ie_8_0_any Sample.ie_8_0_any = Ok false.
Proof. vm_compute. reflexivity. Qed.

(** C8, a pair whose relations are all [Superset] or [Equal] ([1] or
    [3]), where [cpe_subset] of the converse pair returns false. *)
Lemma superset_without_converse_subset :
  forallb
    (fun att =>
       match compare "" (get_value Sample.ie_8_0_any att)
               (get_value Sample.ie_8_0_6 att) with
       | Ok r => (r =? LOGICAL_VALUE_SUPERSET) || (r =? LOGICAL_VALUE_EQUAL)
       | _ => false
       end) Sample.keys = true
  /\ cpe_superset "" Sample.keys Sample.ie_8_0_any Sample.ie_8_0_6 = Ok true
  /\ cpe_subset "" Sample.keys Sample.ie_8_0_6 Sample.ie_8_0_any = Ok false.
Proof. repeat split; vm_compute; reflexivity. Qed.

(** C8 at a pattern whose [Superset] relations all come from ANY: the
    converse pair is a subset. *)
Lemma superset_and_converse_subset_witness :
  exists d,
    compare_wfns "" Sample.keys Sample.microsoft_app Sample.ie_8_0_6 = Ok d
    /\ cpe_superset "" Sample.keys Sample.microsoft_app Sample.ie_8_0_6 = Ok true
    /\ (cpe_subset "" Sample.keys Sample.ie_8_0_6 Sample.microsoft_app = Ok true <->
        forall att, att ∈ Sample.keys ->
          d !! att = Some LOGICAL_VALUE_SUPERSET ->
          any_or_unset "" (folded "" (get_value Sample.microsoft_app att))
          /\ ~ any_or_unset "" (folded "" (get_value Sample.ie_8_0_6 att))).
Proof.
  eexists. split; [reflexivity |].
  apply superset_and_converse_subset; [reflexivity |].
  intros att Hin. unfold Sample.keys in Hin.
  repeat (apply elem_of_cons in Hin as [-> | Hin]; [vm_compute; auto |]).
  apply elem_of_nil in Hin. destruct Hin.
Defined.

Example converse_subset_of_any_pattern :
  cpe_subset "" Sample.keys Sample.ie_8_0_6 Sample.microsoft_app = Ok true.
Proof. vm_compute. reflexivity. Qed.

(** ** The collection *)

Section Collection.

Variable VERSION_2_3 : string.
Variable STYLE_WFN : string.

Lemma already_stored_iff (cpe : CPE) (ks : list CPE) :
  already_stored cpe ks = true <-> exists k, k ∈ ks /\ str cpe = str k.
Proof.
  induction ks as [| k ks IH]; cbn [already_stored].
  - split; [discriminate |]. intros (k & H & _). apply elem_of_nil in H. destruct H.
  - destruct (String.eqb_spec (str cpe) (str k)) as [E | Hne].
    + split; [| reflexivity]. intros _. exists k.
      split; [apply elem_of_cons; now left | exact E].
    + rewrite IH. split.
      * intros (k' & Hin & E). exists k'.
        split; [apply elem_of_cons; now right | exact E].
      * intros (k' & Hin & E). apply elem_of_cons in Hin as [-> | Hin];
          [contradiction | eauto].
Qed.

Lemma already_stored_last (cpe : CPE) (ks : list CPE) :
  already_stored cpe (ks ++ [cpe]) = true.
Proof.
  apply already_stored_iff. exists cpe.
  split; [apply elem_of_app; right; apply elem_of_cons; now left | reflexivity].
Qed.

(** [append] by cases, in the order of its statements. *)
Lemma append_eq (self : CPESet2_3) (cpe : CPE) :
  append VERSION_2_3 STYLE_WFN cpe self =
  if negb (String.eqb (version cpe) VERSION_2_3) then (self, Raise ValueError)
  else if negb (String.eqb (style cpe) STYLE_WFN) then (self, Raise TypeError)
  else if already_stored cpe (K self) then (self, Ok tt)
  else ({| K := K self ++ [cpe] |}, Ok tt).
Proof.
  unfold append, and_then, raise, ret, read_K, K_append.
  destruct (negb (String.eqb (version cpe) VERSION_2_3)); [reflexivity |].
  destruct (negb (String.eqb (style cpe) STYLE_WFN)); [reflexivity |].
  destruct (already_stored cpe (K self)); reflexivity.
Qed.

Lemma append_value_error_iff (self : CPESet2_3) (cpe : CPE) :
  snd (append VERSION_2_3 STYLE_WFN cpe self) = Raise ValueError
  <-> version cpe <> VERSION_2_3.
Proof.
  rewrite append_eq.
  destruct (String.eqb_spec (version cpe) VERSION_2_3) as [Hv | Hv]; cbn [negb].
  - split; [| contradiction].
    destruct (negb _); [discriminate |].
    destruct (already_stored _ _); discriminate.
  - split; [auto | reflexivity].
Qed.

Lemma append_type_error_iff (self : CPESet2_3) (cpe : CPE) :
  snd (append VERSION_2_3 STYLE_WFN cpe self) = Raise TypeError
  <-> version cpe = VERSION_2_3 /\ style cpe <> STYLE_WFN.
Proof.
  rewrite append_eq.
  destruct (String.eqb_spec (version cpe) VERSION_2_3) as [Hv | Hv]; cbn [negb].
  - destruct (String.eqb_spec (style cpe) STYLE_WFN) as [Hs | Hs]; cbn [negb].
    + split; [| intros [_ H]; contradiction].
      destruct (already_stored _ _); discriminate.
    + split; [auto | reflexivity].
  - split; [discriminate | intros [H _]; contradiction].
Qed.

Lemma append_stored (self : CPESet2_3) (cpe : CPE) :
  version cpe = VERSION_2_3 -> style cpe = STYLE_WFN ->
  (exists k, k ∈ K self /\ str cpe = str k) ->
  append VERSION_2_3 STYLE_WFN cpe self = (self, Ok tt).
Proof.
  intros Hv Hs Hdup. rewrite append_eq.
  apply String.eqb_eq in Hv, Hs. rewrite Hv, Hs. cbn [negb].
  apply already_stored_iff in Hdup. rewrite Hdup. reflexivity.
Qed.

Lemma append_twice (self : CPESet2_3) (cpe : CPE) :
  fst (append VERSION_2_3 STYLE_WFN cpe
         (fst (append VERSION_2_3 STYLE_WFN cpe self)))
  = fst (append VERSION_2_3 STYLE_WFN cpe self).
Proof.
  rewrite (append_eq self).
  destruct (negb (String.eqb (version cpe) VERSION_2_3)) eqn:Hv;
    [cbn [fst]; rewrite append_eq, Hv; reflexivity |].
  destruct (negb (String.eqb (style cpe) STYLE_WFN)) eqn:Hs;
    [cbn [fst]; rewrite append_eq, Hv, Hs; reflexivity |].
  destruct (already_stored cpe (K self)) eqn:Hdup; cbn [fst];
    rewrite append_eq, Hv, Hs; cbn [K].
  - rewrite Hdup. reflexivity.
  - rewrite already_stored_last. reflexivity.
Qed.

(** C9, as the code has it.  [append] raises a value error exactly when
    the version tag of the element is not the expected one; it raises a
    type error exactly when the version tag is the expected one and the
    style is not the WFN style; on an element with both as expected
    whose string form is that of a stored member it returns with the
    collection as it was; and appending an element a second time leaves
    the collection, and so its size, as the first append left it. *)
Theorem append_outcomes (self : CPESet2_3) (cpe : CPE) :
  (snd (append VERSION_2_3 STYLE_WFN cpe self) = Raise ValueError
   <-> version cpe <> VERSION_2_3)
  /\ (snd (append VERSION_2_3 STYLE_WFN cpe self) = Raise TypeError
      <-> version cpe = VERSION_2_3 /\ style cpe <> STYLE_WFN)
  /\ (version cpe = VERSION_2_3 -> style cpe = STYLE_WFN ->
      (exists k, k ∈ K self /\ str cpe = str k) ->
      append VERSION_2_3 STYLE_WFN cpe self = (self, Ok tt))
  /\ (let once := fst (append VERSION_2_3 STYLE_WFN cpe self) in
      let twice := fst (append VERSION_2_3 STYLE_WFN cpe once) in
      twice = once /\ size twice = size once).
Proof.
  split; [apply append_value_error_iff |].
  split; [apply append_type_error_iff |].
  split; [apply append_stored |].
  cbv zeta. rewrite append_twice. split; reflexivity.
Qed.

(** C10.  When [append] raises, the collection is as it was before the
    call, and what it raised is the value error or the type error. *)
Theorem append_raise_keeps_collection (self : CPESet2_3) (cpe : CPE) (e : exn) :
  snd (append VERSION_2_3 STYLE_WFN cpe self) = Raise e ->
  fst (append VERSION_2_3 STYLE_WFN cpe self) = self
  /\ (e = ValueError \/ e = TypeError).
Proof.
  rewrite append_eq.
  destruct (negb (String.eqb (version cpe) VERSION_2_3));
    [intros H; injection H as <-; auto |].
  destruct (negb (String.eqb (style cpe) STYLE_WFN));
    [intros H; injection H as <-; auto |].
  destruct (already_stored cpe (K self)); discriminate.
Qed.

End Collection.

(** C9, an element whose style is not the WFN style and on which [append]
    raises no type error: its version tag is not the expected one
    either, and the value error comes first. *)
Lemma append_other_style_value_error :
  style Sample.uri_2_2 <> "WFN"
  /\ snd (append "2.3" "WFN" Sample.uri_2_2 init) = Raise ValueError
  /\ snd (append "2.3" "WFN" Sample.uri_2_2 init) <> Raise TypeError.
Proof. repeat split; discriminate. Qed.

(** C10 at an element of another version, appended to a collection of
    one member. *)
Lemma append_raise_keeps_collection_witness :
  snd (append "2.3" "WFN" Sample.uri_2_2 {| K := [Sample.hp_compact] |})
  = Raise ValueError
  /\ fst (append "2.3" "WFN" Sample.uri_2_2 {| K := [Sample.hp_compact] |})
     = {| K := [Sample.hp_compact] |}
  /\ (ValueError = ValueError \/ ValueError = TypeError).
Proof.
  split; [reflexivity |].
  apply (append_raise_keeps_collection "2.3" "WFN"). reflexivity.
Defined.

Example append_doctest_size :
  let s1 := fst (append "2.3" "WFN" Sample.ie_8_0_6 init) in
  let s2 := fst (append "2.3" "WFN" Sample.windows_8 s1) in
  let s3 := fst (append "2.3" "WFN" Sample.windows_8 s2) in
  size init = 0 /\ size s2 = 2 /\ size s3 = 2.
Proof. repeat split. Qed.

(** * Further properties of the module *)

(** ** More on the string built-ins *)

Lemma length_append (s t : string) :
  String.length (s ++ t) = (String.length s + String.length t)%nat.
Proof. induction s as [| c s IH]; simpl; auto. Qed.

Lemma len_append (s t : string) : Py.len (s ++ t) = Py.len s + Py.len t.
Proof. unfold Py.len. rewrite length_append. lia. Qed.

Lemma drop_append (s t : string) : Py.drop (String.length s) (s ++ t) = t.
Proof. induction s as [| c s IH]; simpl; auto. Qed.

Lemma take_append (s t : string) : Py.take (String.length s) (s ++ t) = s.
Proof.
  induction s as [| c s IH]; simpl; [reflexivity | now rewrite IH].
Qed.

Lemma take_all (s : string) : Py.take (String.length s) s = s.
Proof. induction s as [| c s IH]; simpl; [reflexivity | now rewrite IH]. Qed.

Lemma drop_0 (s : string) : Py.drop 0 s = s.
Proof. reflexivity. Qed.

Lemma drop_drop (n m : nat) (s : string) :
  Py.drop n (Py.drop m s) = Py.drop (m + n) s.
Proof.
  revert s. induction m as [| m IH]; intros s; [reflexivity |].
  destruct s as [| c s]; [destruct n; reflexivity | apply IH].
Qed.

Lemma prefix_append (p t : string) : String.prefix p (p ++ t) = true.
Proof.
  induction p as [| c p IH]; simpl; [destruct t; reflexivity |].
  destruct (ascii_dec c c); [exact IH | contradiction].
Qed.

Lemma prefix_refl (s : string) : String.prefix s s = true.
Proof.
  induction s as [| c s IH]; simpl; [reflexivity |].
  destruct (ascii_dec c c); [exact IH | contradiction].
Qed.

Lemma prefix_length (p s : string) :
  String.prefix p s = true -> (String.length p <= String.length s)%nat.
Proof.
  revert s. induction p as [| c p IH]; intros s H; simpl; [lia |].
  destruct s as [| a s]; simpl in H; [discriminate |].
  destruct (ascii_dec c a); [| discriminate]. apply IH in H. simpl. lia.
Qed.

Lemma prefix_same_length (p s : string) :
  String.prefix p s = true -> String.length p = String.length s -> p = s.
Proof.
  revert s. induction p as [| c p IH]; intros s H Hlen.
  - destruct s; [reflexivity | discriminate].
  - destruct s as [| a s]; simpl in H; [discriminate |].
    destruct (ascii_dec c a) as [-> |]; [| discriminate].
    f_equal. apply IH; [exact H | simpl in Hlen; lia].
Qed.

Lemma count_char_take_le (c : ascii) (n : nat) (s : string) :
  Py.count_char c (Py.take n s) <= Py.count_char c s.
Proof.
  revert s. induction n as [| n IH]; intros s.
  - simpl. apply count_char_nonneg.
  - destruct s as [| a s]; simpl; [lia |]. specialize (IH s).
    destruct (Ascii.eqb a c); lia.
Qed.

Lemma count_char_drop_le (c : ascii) (n : nat) (s : string) :
  Py.count_char c (Py.drop n s) <= Py.count_char c s.
Proof.
  revert s. induction n as [| n IH]; intros s; [simpl; lia |].
  destruct s as [| a s]; simpl; [lia |]. specialize (IH s).
  destruct (Ascii.eqb a c); lia.
Qed.

Lemma count_absent (t : string) (c : ascii) (a b : Z) :
  Py.count_char c t = 0 -> Py.count t c a b = 0.
Proof.
  intros H. unfold Py.count, Py.slice.
  pose proof (count_char_take_le c (Z.to_nat (Py.adjust (Py.len t) b - Py.adjust (Py.len t) a))
                (Py.drop (Z.to_nat (Py.adjust (Py.len t) a)) t)).
  pose proof (count_char_drop_le c (Z.to_nat (Py.adjust (Py.len t) a)) t).
  pose proof (count_char_nonneg c
                (Py.take (Z.to_nat (Py.adjust (Py.len t) b - Py.adjust (Py.len t) a))
                   (Py.drop (Z.to_nat (Py.adjust (Py.len t) a)) t))).
  lia.
Qed.

Lemma count_nonneg (t : string) (c : ascii) (a b : Z) : 0 <= Py.count t c a b.
Proof. apply count_char_nonneg. Qed.

(** [find] from a start inside the string: where it lands. *)
Lemma find_from_first (s sub : string) (pos : Z) :
  String.prefix sub s = true -> Py.find_from s sub pos = pos.
Proof. intros H. rewrite find_from_eq, H. reflexivity. Qed.

Lemma find_from_later (s sub : string) (pos : Z) :
  String.prefix sub s = false ->
  Py.find_from s sub pos = -1 \/ pos + 1 <= Py.find_from s sub pos.
Proof.
  intros H. rewrite find_from_eq, H. destruct s as [| c s]; [now left |].
  destruct (find_from_range s sub (pos + 1)) as [-> | ?]; [now left | right; lia].
Qed.

(** An occurrence at offset [k] bounds the result from above. *)
Lemma find_from_complete (s sub : string) (pos : Z) (k : nat) :
  0 <= pos ->
  String.prefix sub (Py.drop k s) = true ->
  pos <= Py.find_from s sub pos <= pos + Z.of_nat k.
Proof.
  revert s pos. induction k as [| k IH]; intros s pos Hpos H.
  - rewrite drop_0 in H. rewrite (find_from_first _ _ _ H). lia.
  - rewrite find_from_eq. destruct (String.prefix sub s) eqn:Hp; [lia |].
    destruct s as [| c s]; cbn [Py.drop] in H; [congruence |].
    specialize (IH s (pos + 1) ltac:(lia) H). lia.
Qed.

Lemma find_complete (t sub : string) (start : Z) (k : nat) :
  0 <= start <= Z.of_nat k ->
  String.prefix sub (Py.drop k t) = true ->
  (k <= String.length t)%nat ->
  start <= Py.find t sub start <= Z.of_nat k.
Proof.
  intros Hs H Hk. unfold Py.find.
  destruct (Z.ltb_spec start 0); [lia |].
  destruct (Z.ltb_spec (Py.len t) start); [unfold Py.len in *; lia |].
  pose proof (find_from_complete (Py.drop (Z.to_nat start) t) sub start
                (k - Z.to_nat start) ltac:(lia)) as Hc.
  rewrite drop_drop in Hc.
  replace (Z.to_nat start + (k - Z.to_nat start))%nat with k in Hc by lia.
  specialize (Hc H). lia.
Qed.

Lemma find_0_sound (t sub : string) :
  Py.find t sub 0 = 0 -> String.prefix sub t = true.
Proof.
  unfold Py.find. change (0 <? 0) with false. cbv iota.
  destruct (Py.len t <? 0); [discriminate |].
  change (Z.to_nat 0) with O. rewrite drop_0. intros H.
  destruct (String.prefix sub t) eqn:Hp; [reflexivity |].
  destruct (find_from_later t sub 0 Hp); lia.
Qed.

Lemma find_0_prefix (t sub : string) :
  String.prefix sub t = true -> Py.find t sub 0 = 0.
Proof.
  intros H. unfold Py.find. change (0 <? 0) with false. cbv iota.
  pose proof (len_nonneg t). destruct (Z.ltb_spec (Py.len t) 0); [lia |].
  change (Z.to_nat 0) with O. rewrite drop_0. apply find_from_first, H.
Qed.

Lemma slice_prefix (s : string) (e : Z) :
  0 <= e <= Py.len s -> Py.slice s 0 e = Py.take (Z.to_nat e) s.
Proof.
  intros He. unfold Py.slice, Py.adjust.
  change (0 <? 0) with false. cbv iota.
  destruct (Z.ltb_spec e 0); [lia |].
  rewrite (Z.min_l 0) by lia. rewrite (Z.min_l e) by lia.
  rewrite Z.sub_0_r. reflexivity.
Qed.

Lemma mod2_even (n : nat) : (Z.of_nat n mod 2 =? 0) = Nat.even n.
Proof.
  enough (H : (Z.of_nat n mod 2 =? 0) = Nat.even n
              /\ (Z.of_nat (S n) mod 2 =? 0) = Nat.even (S n)) by apply H.
  induction n as [| n [IH1 IH2]]; [split; reflexivity |].
  split; [exact IH2 |].
  replace (Z.of_nat (S (S n))) with (Z.of_nat n + 1 * 2) by lia.
  rewrite Z_mod_plus_full. exact IH1.
Qed.

(** ** Escape parity *)

Lemma get_append_right (pre x : string) (j : nat) :
  String.get (String.length pre + j) (pre ++ x) = String.get j x.
Proof. induction pre as [| c pre IH]; simpl; auto. Qed.

Lemma get_append_left (pre x : string) (j : nat) :
  (j < String.length pre)%nat -> String.get j (pre ++ x) = String.get j pre.
Proof.
  revert j. induction pre as [| c pre IH]; intros j Hj; simpl in Hj; [lia |].
  destruct j as [| j]; simpl; [reflexivity | apply IH; lia].
Qed.

Lemma get_backslashes (n j : nat) (rest : string) :
  (j < n)%nat -> String.get j (backslashes n ++ rest) = Some "\"%char.
Proof.
  revert j. induction n as [| n IH]; intros j Hj; [lia |].
  destruct j as [| j]; simpl; [reflexivity | apply IH; lia].
Qed.

Lemma get_Some_lt (s : string) (n : nat) (c : ascii) :
  String.get n s = Some c -> (n < String.length s)%nat.
Proof.
  revert n. induction s as [| a s IH]; intros n H; [destruct n; discriminate |].
  destruct n as [| n]; simpl in *; [lia |]. apply IH in H. lia.
Qed.

Lemma getitem_get (s : string) (n : nat) (c : ascii) :
  String.get n s = Some c -> Py.getitem s (Z.of_nat n) = Ok c.
Proof.
  intros H. pose proof (get_Some_lt _ _ _ H) as Hlt. unfold Py.getitem.
  destruct (Z.ltb_spec (Z.of_nat n) 0); [lia |].
  destruct (Z.leb_spec 0 (Z.of_nat n)); [| lia].
  destruct (Z.ltb_spec (Z.of_nat n) (Py.len s)); [| unfold Py.len in *; lia].
  cbn [andb]. rewrite Nat2Z.id, H. reflexivity.
Qed.

Lemma last_char (pre : string) :
  pre <> "" ->
  exists c, Py.drop (String.length pre - 1) pre = String c ""
            /\ String.get (String.length pre - 1) pre = Some c.
Proof.
  induction pre as [| a pre IH]; intros Hne; [contradiction |].
  destruct pre as [| b pre]; [exists a; split; reflexivity |].
  destruct IH as (c & Hd & Hg); [discriminate |].
  exists c. cbn [String.length] in *.
  replace (S (S (String.length pre)) - 1)%nat with (S (S (String.length pre) - 1))
    by lia.
  cbn [Py.drop String.get]. split; assumption.
Qed.

Lemma last_char_not_backslash (pre : string) :
  pre <> "" -> Py.endswith pre "\" = false ->
  exists c, String.get (String.length pre - 1) pre = Some c
            /\ Ascii.eqb c "\" = false.
Proof.
  intros Hne Hends. destruct (last_char pre Hne) as (c & Hd & Hg).
  exists c. split; [exact Hg |].
  unfold Py.endswith, Py.is_suffix in Hends.
  change (String.length "\") with 1%nat in Hends. rewrite Hd in Hends.
  destruct pre as [| a pre]; [contradiction |].
  cbn [String.length Nat.leb andb] in Hends.
  destruct (Ascii.eqb_spec c "\") as [-> | _]; [discriminate | reflexivity].
Qed.

Lemma isEvenWildcards_loop_run (pre rest : string) (n k : nat) (acc : Z) :
  Py.endswith pre "\" = false ->
  (k <= n)%nat ->
  isEvenWildcards_loop (pre ++ backslashes n ++ rest) (String.length pre + k) acc
  = Ok (acc + Z.of_nat k).
Proof.
  intros Hends. revert acc. induction k as [| k IH]; intros acc Hk.
  - rewrite Nat.add_0_r, Z.add_0_r.
    destruct (String.length pre) as [| m] eqn:Hlen; [reflexivity |].
    destruct (last_char_not_backslash pre) as (c & Hg & Hc);
      [intros ->; discriminate | exact Hends |].
    cbn [isEvenWildcards_loop].
    replace (Z.of_nat (S m) - 1) with (Z.of_nat m) by lia.
    rewrite (getitem_get _ m c); [cbn [bind]; rewrite Hc; reflexivity |].
    rewrite get_append_left by lia.
    rewrite Hlen in Hg. replace (S m - 1)%nat with m in Hg by lia. exact Hg.
  - rewrite Nat.add_succ_r. cbn [isEvenWildcards_loop].
    replace (Z.of_nat (S (String.length pre + k)) - 1)
      with (Z.of_nat (String.length pre + k)) by lia.
    rewrite (getitem_get _ _ "\"%char);
      [| rewrite get_append_right; apply get_backslashes; lia].
    cbn [bind]. change (Ascii.eqb "\" "\") with true. cbv iota.
    rewrite IH by lia. f_equal. lia.
Qed.

(** X1.  [isEvenWildcards] counts the whole run of backslashes that ends
    just before [idx]: when the text before [idx] is some [pre] that does
    not end in a backslash, followed by [n] backslashes, the answer is
    whether [n] is even, whatever follows. *)
Theorem isEvenWildcards_parity (pre rest : string) (n : nat) :
  Py.endswith pre "\" = false ->
  isEvenWildcards (pre ++ backslashes n ++ rest) (Py.len pre + Z.of_nat n)
  = Ok (Nat.even n).
Proof.
  intros Hends. unfold isEvenWildcards, Py.len.
  replace (Z.to_nat (Z.of_nat (String.length pre) + Z.of_nat n))
    with (String.length pre + n)%nat by lia.
  rewrite (isEvenWildcards_loop_run pre rest n n 0 Hends) by lia.
  cbn [bind]. rewrite Z.add_0_l, mod2_even. reflexivity.
Qed.

Lemma isEvenWildcards_parity_witness :
  Py.endswith "8" "\" = false
  /\ isEvenWildcards ("8" ++ backslashes 3 ++ "*") (Py.len "8" + 3) = Ok false.
Proof.
  split; [reflexivity |].
  exact (isEvenWildcards_parity "8" "*" 3 eq_refl).
Defined.

(** X2.  [isEvenWildcards] with an index past the end of the string (more
    than one past its last character) raises an index error: the first
    character it reads is [str[idx - 1]]. *)
Theorem isEvenWildcards_out_of_range (str : string) (idx : Z) :
  Py.len str < idx -> isEvenWildcards str idx = Raise IndexError.
Proof.
  intros Hlt. pose proof (len_nonneg str). unfold isEvenWildcards.
  destruct (Z.to_nat idx) as [| k] eqn:Hk; [lia |].
  cbn [isEvenWildcards_loop]. unfold Py.getitem.
  destruct (Z.ltb_spec (Z.of_nat (S k) - 1) 0); [lia |].
  destruct (Z.ltb_spec (Z.of_nat (S k) - 1) (Py.len str)); [lia |].
  rewrite andb_false_r. reflexivity.
Qed.

Lemma isEvenWildcards_out_of_range_witness :
  Py.len "abc" < 4 /\ isEvenWildcards "abc" 4 = Raise IndexError.
Proof.
  split; [reflexivity |].
  apply (isEvenWildcards_out_of_range "abc" 4). reflexivity.
Defined.

(** ** Wildcard detection *)

Lemma prefix_empty (s : string) : String.prefix "" s = true.
Proof. destruct s; reflexivity. Qed.

Lemma prefix_single (c a : ascii) (s : string) :
  String.prefix (String c "") (String a s) = Ascii.eqb a c.
Proof.
  simpl. destruct (ascii_dec c a) as [-> | Hne].
  - rewrite prefix_empty, Ascii.eqb_refl. reflexivity.
  - symmetry. apply Ascii.eqb_neq. congruence.
Qed.

Lemma get_drop (k : nat) (s : string) :
  String.get 0 (Py.drop k s) = String.get k s.
Proof.
  revert s. induction k as [| k IH]; intros s; [reflexivity |].
  destruct s as [| a s]; [reflexivity | apply IH].
Qed.

Lemma find_from_sound (s sub : string) (pos : Z) :
  0 <= pos -> Py.find_from s sub pos <> -1 ->
  exists k, Py.find_from s sub pos = pos + Z.of_nat k
            /\ String.prefix sub (Py.drop k s) = true.
Proof.
  revert pos. induction s as [| c s IH]; intros pos Hpos; rewrite find_from_eq.
  - destruct (String.prefix sub "") eqn:Hp; [| contradiction].
    intros _. exists 0%nat. split; [lia | exact Hp].
  - destruct (String.prefix sub (String c s)) eqn:Hp.
    + intros _. exists 0%nat. split; [lia | exact Hp].
    + intros H. destruct (IH (pos + 1) ltac:(lia) H) as (k & Hk & Hpre).
      exists (S k). split; [lia | exact Hpre].
Qed.

Lemma find_char_sound (s : string) (c : ascii) :
  Py.find s (String c "") 0 <> -1 ->
  exists k, Py.find s (String c "") 0 = Z.of_nat k
            /\ String.get k s = Some c.
Proof.
  unfold Py.find. change (0 <? 0) with false. cbv iota.
  destruct (Py.len s <? 0); [contradiction |].
  change (Z.to_nat 0) with O. rewrite drop_0. intros H.
  destruct (find_from_sound s (String c "") 0 ltac:(lia) H) as (k & Hk & Hpre).
  exists k. split; [lia |]. rewrite <- get_drop.
  destruct (Py.drop k s) as [| a d]; [discriminate |].
  rewrite prefix_single in Hpre. apply Ascii.eqb_eq in Hpre as ->. reflexivity.
Qed.

Lemma wildcard_block_sound (s : string) (c : ascii) :
  Ascii.eqb c "*" || Ascii.eqb c "?" = true ->
  wildcard_block s (String c "") = Ok true ->
  Spec.has_unquoted_wildcard s = true.
Proof.
  intros Hc. unfold wildcard_block.
  destruct (Z.eqb_spec (Py.find s (String c "") 0) (-1)) as [| Hfound];
    [discriminate |].
  destruct (find_char_sound s c Hfound) as (k & Hk & Hget). rewrite Hk.
  cbn [negb]. intros Hblock.
  unfold Spec.has_unquoted_wildcard. apply existsb_exists. exists k.
  split; [apply in_seq; pose proof (get_Some_lt _ _ _ Hget); lia |].
  unfold Spec.unquoted_wildcard_at. rewrite Hget, Hc. cbn [andb].
  unfold isEvenWildcards. rewrite Nat2Z.id.
  destruct k as [| k]; [reflexivity |].
  cbn [isEvenWildcards_loop].
  destruct (Z.eqb_spec (Z.of_nat (S k)) 0); [lia |].
  destruct (Py.getitem s (Z.of_nat (S k) - 1)) as [a | e |]; cbn [bind] in *;
    try discriminate.
  destruct (Ascii.eqb a "\"); [discriminate | reflexivity].
Qed.

(** X3.  [contains_wildcards] never flags a string without cause: when it
    answers [True], the string does contain an unquoted asterisk or
    question mark by the escape-parity rule. *)
Theorem contains_wildcards_sound (s : string) :
  contains_wildcards s = Ok true -> Spec.has_unquoted_wildcard s = true.
Proof.
  unfold contains_wildcards.
  destruct (wildcard_block s "*") as [[] | e |] eqn:Hstar; cbn [bind];
    try discriminate.
  - intros _. exact (wildcard_block_sound s "*" eq_refl Hstar).
  - destruct (wildcard_block s "?") as [[] | e |] eqn:Hone; cbn [bind];
      try discriminate.
    intros _. exact (wildcard_block_sound s "?" eq_refl Hone).
Qed.

Lemma contains_wildcards_sound_witness :
  contains_wildcards "8\.0*" = Ok true
  /\ Spec.has_unquoted_wildcard "8\.0*" = true.
Proof.
  split; [reflexivity |].
  apply (contains_wildcards_sound "8\.0*"). reflexivity.
Defined.

Lemma lower_ascii_keeps_wildcards (x : ascii) :
  Ascii.eqb (Py.lower_ascii x) "*" = Ascii.eqb x "*"
  /\ Ascii.eqb (Py.lower_ascii x) "?" = Ascii.eqb x "?"
  /\ Ascii.eqb (Py.lower_ascii x) "\" = Ascii.eqb x "\".
Proof. destruct x as [[] [] [] [] [] [] [] []]; vm_compute; auto. Qed.

Lemma length_lower (s : string) : String.length (Py.lower s) = String.length s.
Proof. induction s as [| c s IH]; simpl; auto. Qed.

Lemma get_lower (s : string) (n : nat) :
  String.get n (Py.lower s) = option_map Py.lower_ascii (String.get n s).
Proof.
  revert n. induction s as [| c s IH]; intros n; [destruct n; reflexivity |].
  destruct n as [| n]; simpl; [reflexivity | apply IH].
Qed.

Lemma getitem_lower (s : string) (i : Z) :
  Py.getitem (Py.lower s) i =
  match Py.getitem s i with
  | Ok c => Ok (Py.lower_ascii c)
  | Raise e => Raise e
  | OutOfFuel => OutOfFuel
  end.
Proof.
  unfold Py.getitem, Py.len. rewrite length_lower, get_lower.
  destruct (_ && _); [| reflexivity].
  destruct (String.get _ s); reflexivity.
Qed.

Lemma find_from_lower (s : string) (c : ascii) (pos : Z) :
  (forall x, Ascii.eqb (Py.lower_ascii x) c = Ascii.eqb x c) ->
  Py.find_from (Py.lower s) (String c "") pos = Py.find_from s (String c "") pos.
Proof.
  intros Hc. revert pos. induction s as [| a s IH]; intros pos; [reflexivity |].
  rewrite (find_from_eq (Py.lower (String a s))), (find_from_eq (String a s)).
  cbn [Py.lower]. rewrite !prefix_single, Hc, IH. reflexivity.
Qed.

Lemma wildcard_block_lower (s : string) (c : ascii) :
  (forall x, Ascii.eqb (Py.lower_ascii x) c = Ascii.eqb x c) ->
  wildcard_block (Py.lower s) (String c "") = wildcard_block s (String c "").
Proof.
  intros Hc. unfold wildcard_block, Py.find, Py.len.
  rewrite length_lower. change (0 <? 0) with false. cbv iota.
  change (Z.to_nat 0) with O. rewrite !drop_0, (find_from_lower s c 0 Hc).
  destruct (Z.of_nat (String.length s) <? 0); [reflexivity |].
  destruct (negb _); [| reflexivity]. destruct (_ =? 0); [reflexivity |].
  rewrite getitem_lower. destruct (Py.getitem s _) as [a | e |]; cbn [bind];
    try reflexivity.
  rewrite (proj2 (proj2 (lower_ascii_keeps_wildcards a))). reflexivity.
Qed.

(** X4.  Lower-casing a string does not change what [contains_wildcards]
    answers for it: [compare] tests the folded target, and gets the
    answer of the target as given. *)
Theorem contains_wildcards_lower (s : string) :
  contains_wildcards (Py.lower s) = contains_wildcards s.
Proof.
  unfold contains_wildcards.
  rewrite (wildcard_block_lower s "*"), (wildcard_block_lower s "?");
    [reflexivity | |]; intros x; apply lower_ascii_keeps_wildcards.
Qed.

(** ** The string matcher on particular shapes of source *)

(** [compareStrings] after its two question-mark loops, which do nothing. *)
Lemma compareStrings_eq (source target : string) :
  compareStrings source target =
  let! r := (if Py.endswith source WILDCARD_MULTI then
               let! b := isEvenWildcards source (Py.len source - 1) in
               if b then Ok (Py.len source - 1, -1)
               else Ok (Py.len source, 0)
             else Ok (Py.len source, 0)) in
  search (S (S (String.length target))) target
    (Py.slice source (if Py.startswith source WILDCARD_MULTI then 1 else 0) (fst r))
    (if Py.startswith source WILDCARD_MULTI then -1 else 0) (snd r)
    (-1) (Py.len target).
Proof.
  unfold compareStrings.
  rewrite leading_ones_strips_nothing, trailing_ones_strips_nothing.
  fold (Py.len source).
  destruct (Py.startswith source WILDCARD_MULTI);
    destruct (Py.endswith source WILDCARD_MULTI); cbn [bind]; try reflexivity;
    destruct (isEvenWildcards source (Py.len source - 1)) as [[] | e |];
    reflexivity.
Qed.

(** X5.  Against the empty target every source is [Disjoint], a lone
    asterisk included: the scan does not start on a target of length 0. *)
Theorem compareStrings_empty_target (source : string) :
  compareStrings source "" = Ok LOGICAL_VALUE_DISJOINT.
Proof.
  rewrite compareStrings_eq.
  destruct (Py.endswith source WILDCARD_MULTI); cbn [bind]; [| reflexivity].
  destruct (isEvenWildcards_total source (Py.len source - 1)) as [[] ->];
    [lia | |]; reflexivity.
Qed.

(** X6.  The source [*] is a superset of every target but the empty one. *)
Theorem compareStrings_lone_asterisk (target : string) :
  compareStrings "*" target
  = Ok (if String.eqb target "" then LOGICAL_VALUE_DISJOINT
        else LOGICAL_VALUE_SUPERSET).
Proof.
  destruct target as [| a t]; [reflexivity |].
  rewrite compareStrings_eq.
  change (Py.endswith "*" WILDCARD_MULTI) with true.
  change (Py.startswith "*" WILDCARD_MULTI) with true.
  change (isEvenWildcards "*" (Py.len "*" - 1)) with (Ok (A := bool) true).
  cbn [bind fst snd]. change (Py.slice "*" 1 (Py.len "*" - 1)) with "".
  rewrite search_eq.
  assert (Hlen : Py.len (String a t) > 0) by (unfold Py.len; simpl String.length; lia).
  destruct (Z.gtb_spec (Py.len (String a t)) 0); [| lia].
  cbv zeta. change (-1 + 1) with 0.
  rewrite (find_0_prefix (String a t) "" eq_refl).
  change (0 =? -1) with false. change (0 >? 0) with false.
  change (-1 =? -1) with true. cbn [negb andb]. rewrite andb_false_r.
  reflexivity.
Qed.

Lemma is_suffix_append (p x : string) : Py.is_suffix x (p ++ x) = true.
Proof.
  unfold Py.is_suffix. rewrite length_append.
  replace (String.length p + String.length x - String.length x)%nat
    with (String.length p) by lia.
  rewrite drop_append, String.eqb_refl, andb_true_r.
  apply Nat.leb_le. lia.
Qed.

(** X7.  A pattern [p*] is a superset of every target that starts with
    [p], when [p] is not empty, does not itself start with an asterisk,
    and the final asterisk is unquoted. *)
Theorem compareStrings_prefix_pattern (p t : string) :
  p <> "" ->
  Py.startswith p "*" = false ->
  isEvenWildcards (p ++ "*") (Py.len p) = Ok true ->
  compareStrings (p ++ "*") (p ++ t) = Ok LOGICAL_VALUE_SUPERSET.
Proof.
  intros Hne Hstart Heven. rewrite compareStrings_eq.
  assert (Hs : Py.startswith (p ++ "*") WILDCARD_MULTI = false).
  { destruct p as [| a p]; [contradiction |].
    unfold Py.startswith, WILDCARD_MULTI in *.
    change (String a p ++ "*") with (String a (p ++ "*")).
    rewrite prefix_single in *. exact Hstart. }
  rewrite Hs.
  unfold Py.endswith, WILDCARD_MULTI. rewrite is_suffix_append.
  rewrite len_append. change (Py.len "*") with 1.
  replace (Py.len p + 1 - 1) with (Py.len p) by lia.
  rewrite Heven. cbn [bind fst snd].
  rewrite slice_prefix by (rewrite len_append; pose proof (len_nonneg p);
                           change (Py.len "*") with 1; lia).
  unfold Py.len at 1. rewrite Nat2Z.id, take_append.
  rewrite search_eq.
  assert (Hlen : Py.len (p ++ t) > 0).
  { destruct p; [contradiction |]. unfold Py.len. simpl String.length. lia. }
  destruct (Z.gtb_spec (Py.len (p ++ t)) 0); [| lia].
  cbv zeta. change (-1 + 1) with 0.
  rewrite (find_0_prefix (p ++ t) p (prefix_append p t)).
  change (0 =? -1) with false. change (0 >? 0) with false.
  change (-1 =? -1) with true. cbn [negb andb]. rewrite andb_false_r.
  reflexivity.
Qed.

Lemma compareStrings_prefix_pattern_witness :
  compareStrings ("8\.0" ++ "*") ("8\.0" ++ "\.6") = Ok LOGICAL_VALUE_SUPERSET.
Proof.
  apply (compareStrings_prefix_pattern "8\.0" "\.6");
    [discriminate | reflexivity | reflexivity].
Defined.

Lemma is_suffix_cons (x : string) (a : ascii) (q : string) :
  q <> "" -> String.length x = 1%nat ->
  Py.is_suffix x (String a q) = Py.is_suffix x q.
Proof.
  intros Hne Hx. unfold Py.is_suffix. rewrite Hx.
  destruct q as [| b q]; [contradiction |]. cbn [String.length].
  replace (S (S (String.length q)) - 1)%nat with (S (S (String.length q) - 1))
    by lia.
  reflexivity.
Qed.

(** The scan for a source with an unbounded prefix and no suffix slack,
    when the literal occurs at position [j0] with nothing left over. *)
Lemma search_reaches (fuel : nat) (target q : string) (j0 : nat)
  (index leftover : Z) :
  String.prefix q (Py.drop j0 target) = true ->
  (j0 <= String.length target)%nat ->
  Py.len target - Z.of_nat j0
    - Py.count target "\" (Z.of_nat j0 + 1) (Py.len target) - Py.len q <= 0 ->
  -1 <= index < Z.of_nat j0 ->
  leftover > 0 ->
  Z.of_nat j0 - index <= Z.of_nat fuel ->
  search fuel target q (-1) 0 index leftover = Ok LOGICAL_VALUE_SUPERSET.
Proof.
  intros Hocc Hj0 Hlast. revert index leftover.
  induction fuel as [| fuel IH]; intros index leftover Hidx Hleft Hfuel; [lia |].
  rewrite search_eq. destruct (Z.gtb_spec leftover 0); [| lia]. cbv zeta.
  pose proof (find_complete target q (index + 1) j0 ltac:(lia) Hocc Hj0) as Hfind.
  destruct (Z.eqb_spec (Py.find target q (index + 1)) (-1)); [lia |].
  change (-1 =? -1) with true. cbn [negb]. rewrite andb_false_r. cbn [andb].
  cbv iota.
  set (idx := Py.find target q (index + 1)) in *.
  destruct (Z.gtb_spec
              (Py.len target - idx - Py.count target "\" (idx + 1) (Py.len target)
               - Py.len q) 0) as [Hpos | _]; [| reflexivity].
  change (0 =? -1) with false. cbn [negb andb].
  apply IH; [| lia | ].
  - assert (idx <> Z.of_nat j0) by (intros E; rewrite E in Hpos; lia). lia.
  - assert (idx <> Z.of_nat j0) by (intros E; rewrite E in Hpos; lia). lia.
Qed.

(** X8.  A pattern [*q] is a superset of every target that ends with
    [q], when [q] is not empty and does not end in an asterisk. *)
Theorem compareStrings_suffix_pattern (q t : string) :
  q <> "" ->
  Py.endswith q "*" = false ->
  compareStrings ("*" ++ q) (t ++ q) = Ok LOGICAL_VALUE_SUPERSET.
Proof.
  intros Hne Hend. rewrite compareStrings_eq.
  change ("*" ++ q) with (String "*" q).
  assert (Hst : Py.startswith (String "*" q) WILDCARD_MULTI = true)
    by (unfold Py.startswith, WILDCARD_MULTI; rewrite prefix_single; reflexivity).
  rewrite Hst.
  unfold Py.endswith, WILDCARD_MULTI in *.
  rewrite (is_suffix_cons "*" "*" q Hne eq_refl), Hend. cbn [bind fst snd].
  assert (Hslice : Py.slice (String "*" q) 1 (Py.len (String "*" q)) = q).
  { unfold Py.slice, Py.adjust, Py.len. cbn [String.length].
    destruct (Z.ltb_spec 1 0); [lia |].
    destruct (Z.ltb_spec (Z.of_nat (S (String.length q))) 0); [lia |].
    rewrite (Z.min_l 1) by lia. rewrite Z.min_id.
    replace (Z.to_nat (Z.of_nat (S (String.length q)) - 1))
      with (String.length q) by lia.
    change (Z.to_nat 1) with 1%nat. cbn [Py.drop]. apply take_all. }
  rewrite Hslice.
  apply (search_reaches _ (t ++ q) q (String.length t)).
  - rewrite drop_append. apply prefix_refl.
  - rewrite length_append. lia.
  - rewrite len_append. unfold Py.len at 1 3.
    pose proof (count_nonneg (t ++ q) "\" (Z.of_nat (String.length t) + 1) (Py.len t + Py.len q)).
    unfold Py.len in *. lia.
  - lia.
  - rewrite len_append. destruct q; [contradiction |].
    unfold Py.len. simpl String.length. lia.
  - rewrite length_append. lia.
Qed.

Lemma compareStrings_suffix_pattern_witness :
  compareStrings ("*" ++ "_server") ("windows" ++ "_server")
  = Ok LOGICAL_VALUE_SUPERSET.
Proof.
  apply (compareStrings_suffix_pattern "_server" "windows");
    [discriminate | reflexivity].
Defined.

Lemma startswith_absent (s : string) (c : ascii) :
  Py.count_char c s = 0 -> Py.startswith s (String c "") = false.
Proof. apply prefix_head_absent. Qed.

Lemma endswith_absent (s : string) (c : ascii) :
  Py.count_char c s = 0 -> Py.endswith s (String c "") = false.
Proof.
  intros H. unfold Py.endswith, Py.is_suffix.
  destruct (String.eqb_spec (Py.drop (String.length s - String.length (String c "")) s)
              (String c "")) as [E | _]; [| apply andb_false_r].
  pose proof (count_char_drop_le c (String.length s - String.length (String c "")) s)
    as Hle.
  rewrite E in Hle. cbn [Py.count_char] in Hle. rewrite Ascii.eqb_refl in Hle. lia.
Qed.

(** X9.  A source without any asterisk, against a non-empty target
    without any backslash: [Superset] when the two are the same string,
    [Disjoint] otherwise. *)
Theorem compareStrings_plain (source target : string) :
  Py.count_char "*" source = 0 ->
  Py.count_char "\" target = 0 ->
  target <> "" ->
  compareStrings source target
  = Ok (if String.eqb source target then LOGICAL_VALUE_SUPERSET
        else LOGICAL_VALUE_DISJOINT).
Proof.
  intros Hstar Hesc Hne. rewrite compareStrings_eq.
  unfold WILDCARD_MULTI.
  rewrite (startswith_absent source "*" Hstar), (endswith_absent source "*" Hstar).
  cbn [bind fst snd].
  rewrite slice_prefix by (pose proof (len_nonneg source); lia).
  unfold Py.len at 1. rewrite Nat2Z.id, take_all.
  assert (Hlen : Py.len target > 0).
  { destruct target; [contradiction |]. unfold Py.len. simpl String.length. lia. }
  rewrite search_eq. destruct (Z.gtb_spec (Py.len target) 0); [| lia].
  cbv zeta. change (-1 + 1) with 0. rewrite !(count_absent target "\" _ _ Hesc).
  change (0 =? -1) with false. cbn [negb]. rewrite !Z.sub_0_r, !andb_true_r.
  destruct (String.eqb_spec source target) as [-> | Hdiff].
  - rewrite (find_0_prefix target target (prefix_refl target)).
    change (0 =? -1) with false. change (0 >? 0) with false. cbn [andb].
    replace (Py.len target - 0 - Py.len target) with 0 by lia. reflexivity.
  - destruct (find_range target source 0 ltac:(lia)) as [-> | Hrange];
      [reflexivity |].
    destruct (Z.eqb_spec (Py.find target source 0) (-1)); [reflexivity |].
    destruct (Z.gtb_spec (Py.find target source 0) 0) as [Hpos | Hzero].
    + rewrite (proj2 (Z.ltb_lt _ _)) by lia. reflexivity.
    + assert (H0 : Py.find target source 0 = 0) by lia. rewrite H0.
      cbn [andb]. rewrite Z.sub_0_r. apply find_0_sound in H0.
      pose proof (prefix_length _ _ H0) as Hle.
      destruct (Z.gtb_spec (Py.len target - Py.len source) 0) as [Hmore | Hnot].
      * rewrite search_eq.
        destruct (Z.gtb_spec (Py.len target - Py.len source) 0); [| lia].
        cbv zeta. change (0 + 1) with 1.
        destruct (find_range target source 1 ltac:(lia)) as [-> | Hr1];
          [reflexivity |].
        destruct (Z.eqb_spec (Py.find target source 1) (-1)); [reflexivity |].
        rewrite !(count_absent target "\" _ _ Hesc).
        change (0 =? -1) with false. cbn [negb]. rewrite Z.sub_0_r, andb_true_r.
        rewrite (proj2 (Z.gtb_lt _ _)) by lia.
        rewrite (proj2 (Z.ltb_lt _ _)) by lia. reflexivity.
      * exfalso. apply Hdiff, (prefix_same_length _ _ H0).
        unfold Py.len in Hnot. lia.
Qed.

Lemma compareStrings_plain_witness :
  compareStrings "windows" "windows" = Ok LOGICAL_VALUE_SUPERSET.
Proof.
  apply (compareStrings_plain "windows" "windows");
    [reflexivity | reflexivity | discriminate].
Defined.

Lemma find_sound (t sub : string) (start : Z) :
  0 <= start -> Py.find t sub start <> -1 ->
  exists j, Py.find t sub start = Z.of_nat j
            /\ (j <= String.length t)%nat
            /\ String.prefix sub (Py.drop j t) = true.
Proof.
  intros Hs Hfound.
  destruct (find_range t sub start Hs) as [E | Hrange]; [contradiction |].
  unfold Py.find in *.
  destruct (Z.ltb_spec start 0); [lia |].
  destruct (Z.ltb_spec (Py.len t) start); [contradiction |].
  destruct (find_from_sound _ _ _ Hs Hfound) as (k & Hk & Hpre).
  rewrite drop_drop in Hpre. exists (Z.to_nat start + k)%nat.
  split; [lia |]. split; [unfold Py.len in *; lia | exact Hpre].
Qed.

Lemma search_superset_occurs (fuel : nat) (target q : string)
  (begins ends index leftover : Z) :
  -1 <= index ->
  search fuel target q begins ends index leftover = Ok LOGICAL_VALUE_SUPERSET ->
  exists j, (j <= String.length target)%nat
            /\ String.prefix q (Py.drop j target) = true.
Proof.
  revert index leftover. induction fuel as [| fuel IH]; intros index leftover Hidx;
    rewrite search_eq; destruct (leftover >? 0); try discriminate.
  cbv zeta.
  destruct (Z.eqb_spec (Py.find target q (index + 1)) (-1)) as [| Hfound];
    [discriminate |].
  destruct (_ && _ && _); [discriminate |].
  destruct (find_sound target q (index + 1) ltac:(lia) Hfound) as (j & Hj & Hle & Hpre).
  destruct (_ && _); [| intros _; eauto].
  apply IH. lia.
Qed.

(** X10.  [Superset] is only returned for a target in which the literal
    part of the source occurs: the source without its leading asterisk,
    if it has one, and with or without its last character. *)
Theorem compareStrings_superset_occurs (source target : string) :
  compareStrings source target = Ok LOGICAL_VALUE_SUPERSET ->
  exists (stop : Z) (j : nat),
    (stop = Py.len source \/ stop = Py.len source - 1)
    /\ (j <= String.length target)%nat
    /\ String.prefix
         (Py.slice source (if Py.startswith source "*" then 1 else 0) stop)
         (Py.drop j target) = true.
Proof.
  rewrite compareStrings_eq. unfold WILDCARD_MULTI.
  destruct (Py.endswith source "*").
  - destruct (isEvenWildcards source (Py.len source - 1)) as [[] | e |];
      cbn [bind fst snd]; try discriminate; intros H;
      apply search_superset_occurs in H as (j & Hle & Hpre); try lia.
    + exists (Py.len source - 1), j. auto.
    + exists (Py.len source), j. auto.
  - cbn [bind fst snd]. intros H.
    apply search_superset_occurs in H as (j & Hle & Hpre); [| lia].
    exists (Py.len source), j. auto.
Qed.

Lemma compareStrings_superset_occurs_witness :
  exists (stop : Z) (j : nat),
    (stop = Py.len "8\.0*" \/ stop = Py.len "8\.0*" - 1)
    /\ (j <= String.length "8\.0\.6")%nat
    /\ String.prefix
         (Py.slice "8\.0*" (if Py.startswith "8\.0*" "*" then 1 else 0) stop)
         (Py.drop j "8\.0\.6") = true.
Proof.
  apply (compareStrings_superset_occurs "8\.0*" "8\.0\.6"). reflexivity.
Defined.

(** ** More on the value comparator *)

Lemma lower_ascii_idem (c : ascii) :
  Py.lower_ascii (Py.lower_ascii c) = Py.lower_ascii c.
Proof. destruct c as [[] [] [] [] [] [] [] []]; vm_compute; reflexivity. Qed.

Lemma lower_idem (s : string) : Py.lower (Py.lower s) = Py.lower s.
Proof.
  induction s as [| c s IH]; simpl; [reflexivity |].
  now rewrite lower_ascii_idem, IH.
Qed.

Section ComparatorMore.

Variable VALUE_NULL : string.

Lemma is_string_lower (s : string) :
  Py.lower s <> VALUE_NULL -> is_string VALUE_NULL (Py.lower s) = true.
Proof.
  intros Hnull. unfold is_string.
  destruct (String.eqb_spec (Py.lower s) VALUE_ANY_VALUE) as [E | _];
    [destruct (lower_not_ANY s E) |].
  destruct (String.eqb_spec (Py.lower s) VALUE_NOT_APPLICABLE) as [E | _];
    [destruct (lower_not_NA s E) |].
  destruct (String.eqb_spec (Py.lower s) VALUE_NULL); [contradiction | reflexivity].
Qed.

(** [compare] looks at its arguments through [folded] only. *)
Lemma compare_folded (s s' t t' : string) :
  folded VALUE_NULL s = folded VALUE_NULL s' ->
  folded VALUE_NULL t = folded VALUE_NULL t' ->
  compare VALUE_NULL s t = compare VALUE_NULL s' t'.
Proof.
  intros Hs Ht. rewrite !compare_eq. cbv zeta.
  rewrite (flags_wildcards_folded VALUE_NULL t t' Ht), Hs, Ht. reflexivity.
Qed.

(** X11.  [compare] never raises: it returns one of the five relation
    values, and [Undefined] exactly when the target, as folded, is a
    string on which [contains_wildcards] answers [True]. *)
Theorem compare_outcome (source target : string) :
  exists r,
    compare VALUE_NULL source target = Ok r
    /\ is_relation r
    /\ (r = LOGICAL_VALUE_UNDEFINED <-> flags_wildcards VALUE_NULL target = true).
Proof.
  destruct (compare_total VALUE_NULL source target) as (r & Hr & Hrel).
  exists r. split; [exact Hr |]. split; [exact Hrel |].
  rewrite <- (compare_undefined_iff VALUE_NULL source target), Hr.
  split; [intros ->; reflexivity | intros E; now injection E].
Qed.

(** X12.  Strings are compared without regard to case: two strings
    compare as their lower-case forms do (when lower-casing does not turn
    either into the unset marker). *)
Theorem compare_case_insensitive (source target : string) :
  is_string VALUE_NULL source = true ->
  is_string VALUE_NULL target = true ->
  Py.lower source <> VALUE_NULL ->
  Py.lower target <> VALUE_NULL ->
  compare VALUE_NULL source target
  = compare VALUE_NULL (Py.lower source) (Py.lower target).
Proof.
  intros Hs Ht Hns Hnt. apply compare_folded; unfold folded.
  - rewrite Hs, (is_string_lower source Hns), lower_idem. reflexivity.
  - rewrite Ht, (is_string_lower target Hnt), lower_idem. reflexivity.
Qed.

(** X13.  [Equal] is symmetric: when [compare(source, target)] is
    [Equal], so is [compare(target, source)]. *)
Theorem compare_equal_symmetric (source target : string) :
  compare VALUE_NULL source target = Ok LOGICAL_VALUE_EQUAL ->
  compare VALUE_NULL target source = Ok LOGICAL_VALUE_EQUAL.
Proof.
  intros H. apply compare_equal_iff in H as [Hf E]. apply compare_equal_iff.
  split; [| auto]. rewrite (flags_wildcards_folded VALUE_NULL source target E).
  exact Hf.
Qed.

(** X14.  A string against NA: [compare(x, NA)] is [Disjoint];
    [compare(NA, x)] is [Disjoint] unless [x] is flagged for wildcards,
    and then it is [Undefined] (the unset marker not being the text NA,
    nor the lower-case form of [x]). *)
Theorem compare_not_applicable (x : string) :
  VALUE_NULL <> VALUE_NOT_APPLICABLE ->
  is_string VALUE_NULL x = true ->
  Py.lower x <> VALUE_NULL ->
  compare VALUE_NULL x VALUE_NOT_APPLICABLE = Ok LOGICAL_VALUE_DISJOINT
  /\ compare VALUE_NULL VALUE_NOT_APPLICABLE x
     = Ok (if flags_wildcards VALUE_NULL x
           then LOGICAL_VALUE_UNDEFINED else LOGICAL_VALUE_DISJOINT).
Proof.
  intros Hnull Hx Hlow.
  assert (Hfx : folded VALUE_NULL x = Py.lower x) by (unfold folded; now rewrite Hx).
  assert (Hna : folded VALUE_NULL VALUE_NOT_APPLICABLE = VALUE_NOT_APPLICABLE)
    by reflexivity.
  assert (Hfna : flags_wildcards VALUE_NULL VALUE_NOT_APPLICABLE = false)
    by reflexivity.
  assert (E1 : String.eqb (Py.lower x) VALUE_NOT_APPLICABLE = false)
    by (apply String.eqb_neq, lower_not_NA).
  assert (E2 : String.eqb (Py.lower x) VALUE_ANY_VALUE = false)
    by (apply String.eqb_neq, lower_not_ANY).
  assert (E3 : String.eqb (Py.lower x) VALUE_NULL = false)
    by (apply String.eqb_neq, Hlow).
  assert (E4 : String.eqb VALUE_NOT_APPLICABLE VALUE_NULL = false)
    by (apply String.eqb_neq; congruence).
  assert (E5 : String.eqb VALUE_NOT_APPLICABLE (Py.lower x) = false)
    by (rewrite String.eqb_sym; exact E1).
  split; rewrite compare_eq; cbv zeta; rewrite Hfx, Hna.
  - rewrite Hfna, E1, E2, E3, E4. reflexivity.
  - destruct (flags_wildcards VALUE_NULL x); [reflexivity |].
    rewrite E5, E4, E2, E3. reflexivity.
Qed.

(** X15.  The converse of a [Subset]: when [compare(source, target)] is
    [Subset], [compare(target, source)] is [Superset], unless the source
    is flagged for wildcards, and then it is [Undefined]. *)
Theorem compare_subset_converse (source target : string) :
  compare VALUE_NULL source target = Ok LOGICAL_VALUE_SUBSET ->
  compare VALUE_NULL target source
  = Ok (if flags_wildcards VALUE_NULL source
        then LOGICAL_VALUE_UNDEFINED else LOGICAL_VALUE_SUPERSET).
Proof.
  intros H. apply compare_subset_iff in H as (_ & Hne & _ & Ht).
  rewrite compare_eq. cbv zeta.
  destruct (flags_wildcards VALUE_NULL source); [reflexivity |].
  destruct (String.eqb_spec (folded VALUE_NULL target) (folded VALUE_NULL source));
    [congruence |].
  rewrite (proj2 (any_or_unset_eqb VALUE_NULL _) Ht). reflexivity.
Qed.

End ComparatorMore.

Lemma compare_case_insensitive_witness :
  compare "" "Windows" "WINDOWS" = compare "" "windows" "windows".
Proof.
  apply (compare_case_insensitive "" "Windows" "WINDOWS");
    vm_compute; first [reflexivity | discriminate].
Defined.

Lemma compare_equal_symmetric_witness :
  compare "" "Windows" "WINDOWS" = Ok LOGICAL_VALUE_EQUAL
  /\ compare "" "WINDOWS" "Windows" = Ok LOGICAL_VALUE_EQUAL.
Proof.
  split; [reflexivity |].
  apply (compare_equal_symmetric "" "Windows" "WINDOWS"). reflexivity.
Defined.

Lemma compare_not_applicable_witness :
  compare "" "PalmOS" VALUE_NOT_APPLICABLE = Ok LOGICAL_VALUE_DISJOINT
  /\ compare "" VALUE_NOT_APPLICABLE "PalmOS" = Ok LOGICAL_VALUE_DISJOINT.
Proof.
  apply (compare_not_applicable "" "PalmOS");
    vm_compute; first [reflexivity | discriminate].
Defined.

Lemma compare_subset_converse_witness :
  compare "" "Adobe" VALUE_ANY_VALUE = Ok LOGICAL_VALUE_SUBSET
  /\ compare "" VALUE_ANY_VALUE "Adobe" = Ok LOGICAL_VALUE_SUPERSET.
Proof.
  split; [reflexivity |].
  apply (compare_subset_converse "" "Adobe" VALUE_ANY_VALUE). reflexivity.
Defined.

(** ** More on the identifier comparator and the predicates *)

Section IdentifierMore.

Variable VALUE_NULL : string.
Variable wfn_part_keys : list string.

Lemma compare_wfns_only_keys (source target : CPE) (d : gmap string Z) (att : string) :
  compare_wfns VALUE_NULL wfn_part_keys source target = Ok d ->
  is_Some (d !! att) -> att ∈ wfn_part_keys.
Proof.
  intros Hd Hsome.
  destruct (compare_wfns_loop_spec VALUE_NULL wfn_part_keys source target ∅)
    as (d' & Hd' & Hspec).
  unfold compare_wfns in Hd. rewrite Hd in Hd'. injection Hd' as <-.
  destruct (decide (att ∈ wfn_part_keys)) as [Hin | Hout]; [exact Hin |].
  destruct (Hspec att) as [_ Hnone]. rewrite (Hnone Hout), lookup_empty in Hsome.
  destruct Hsome as [? ?]. discriminate.
Qed.

(** X16.  The dictionary of [compare_wfns] has an entry for each
    attribute key and for nothing else, and each entry is one of the five
    relation values: what [compare] returns for the two values of the
    key. *)
Theorem compare_wfns_domain (source target : CPE) :
  exists d : gmap string Z,
    compare_wfns VALUE_NULL wfn_part_keys source target = Ok d
    /\ dom d = (list_to_set wfn_part_keys : gset string)
    /\ forall att r,
         d !! att = Some r ->
         is_relation r
         /\ compare VALUE_NULL (get_value source att) (get_value target att) = Ok r.
Proof.
  destruct (compare_wfns_spec VALUE_NULL wfn_part_keys source target)
    as (d & Hd & Hlook).
  exists d. split; [exact Hd |]. split.
  - apply set_eq. intros att. rewrite elem_of_dom, elem_of_list_to_set. split.
    + apply (compare_wfns_only_keys _ _ _ _ Hd).
    + intros Hin. destruct (Hlook att Hin) as (r & _ & Hr). eauto.
  - intros att r Hr.
    assert (Hin : att ∈ wfn_part_keys)
      by (apply (compare_wfns_only_keys _ _ _ _ Hd); eauto).
    destruct (Hlook att Hin) as (r' & Hc & Hr'). rewrite Hr in Hr'.
    injection Hr' as <-. split; [| exact Hc].
    destruct (compare_total VALUE_NULL (get_value source att) (get_value target att))
      as (r2 & Hc2 & Hrel). rewrite Hc in Hc2. injection Hc2 as <-. exact Hrel.
Qed.

(** X17.  How the four predicates go together on one pair: [cpe_equal]
    is true exactly when [cpe_subset] and [cpe_superset] both are, and
    when [cpe_disjoint] is true the three others are false. *)
Theorem predicates_consistent (source target : CPE) :
  exists isDisjoint isEqual isSubset isSuperset : bool,
    cpe_disjoint VALUE_NULL wfn_part_keys source target = Ok isDisjoint
    /\ cpe_equal VALUE_NULL wfn_part_keys source target = Ok isEqual
    /\ cpe_subset VALUE_NULL wfn_part_keys source target = Ok isSubset
    /\ cpe_superset VALUE_NULL wfn_part_keys source target = Ok isSuperset
    /\ isEqual = isSubset && isSuperset
    /\ (isDisjoint = true ->
        isEqual = false /\ isSubset = false /\ isSuperset = false).
Proof.
  destruct (compare_wfns_spec VALUE_NULL wfn_part_keys source target)
    as (d & Hd & _).
  pose proof (compare_wfns_defined _ _ _ _ _ Hd) as Hdef.
  destruct (cpe_disjoint_loop_spec wfn_part_keys d Hdef) as (bd & Hbd & Hd_iff).
  destruct (cpe_equal_loop_spec wfn_part_keys d Hdef) as (be & Hbe & He_iff).
  destruct (cpe_subset_loop_spec wfn_part_keys d Hdef) as (bs & Hbs & Hs_iff).
  destruct (cpe_superset_loop_spec wfn_part_keys d Hdef) as (bp & Hbp & Hp_iff).
  exists bd, be, bs, bp.
  unfold cpe_disjoint, cpe_equal, cpe_subset, cpe_superset.
  rewrite Hd. cbn [bind].
  repeat (split; [assumption |]). split.
  - destruct be.
    + symmetry. apply andb_true_iff.
      split; [apply Hs_iff | apply Hp_iff]; intros att Hin; right;
        now apply He_iff.
    + destruct bs; [| reflexivity]. destruct bp; [| reflexivity].
      enough (false = true) by discriminate. apply He_iff. intros att Hin.
      destruct (proj1 Hs_iff eq_refl att Hin) as [Es | Es]; [| exact Es].
      destruct (proj1 Hp_iff eq_refl att Hin) as [Ep | Ep]; [| exact Ep].
      rewrite Es in Ep. relation_values. discriminate.
  - intros ->. destruct (proj1 Hd_iff eq_refl) as (att & Hin & Hdis).
    assert (Hs : bs = false).
    { destruct bs; [| reflexivity].
      destruct (proj1 Hs_iff eq_refl att Hin) as [E | E]; rewrite Hdis in E;
        relation_values; discriminate. }
    assert (Hp : bp = false).
    { destruct bp; [| reflexivity].
      destruct (proj1 Hp_iff eq_refl att Hin) as [E | E]; rewrite Hdis in E;
        relation_values; discriminate. }
    repeat split; [| assumption | assumption].
    destruct be; [| reflexivity].
    pose proof (proj1 He_iff eq_refl att Hin) as E. rewrite Hdis in E.
    relation_values. discriminate.
Qed.

Lemma compare_any_source (v : string) :
  compare VALUE_NULL VALUE_ANY_VALUE v
  = Ok (if flags_wildcards VALUE_NULL v then LOGICAL_VALUE_UNDEFINED
        else if String.eqb VALUE_ANY_VALUE (folded VALUE_NULL v)
             then LOGICAL_VALUE_EQUAL else LOGICAL_VALUE_SUPERSET).
Proof.
  rewrite compare_eq. cbv zeta. rewrite folded_ANY.
  destruct (flags_wildcards VALUE_NULL v); [reflexivity |].
  destruct (String.eqb VALUE_ANY_VALUE (folded VALUE_NULL v)); reflexivity.
Qed.

(** X18.  A candidate whose every attribute is ANY is a superset of
    exactly the identifiers none of whose attribute values is flagged for
    wildcards. *)
Theorem cpe_superset_any_pattern (wfn M : CPE) :
  (forall att, att ∈ wfn_part_keys -> get_value wfn att = VALUE_ANY_VALUE) ->
  exists b,
    cpe_superset VALUE_NULL wfn_part_keys wfn M = Ok b
    /\ (b = true <->
        forall att, att ∈ wfn_part_keys ->
          flags_wildcards VALUE_NULL (get_value M att) = false).
Proof.
  intros Hany.
  destruct (cpe_superset_total VALUE_NULL wfn_part_keys wfn M) as [b Hb].
  exists b. split; [exact Hb |]. split.
  - intros ->. intros att Hin.
    pose proof (proj1 (cpe_superset_true_iff _ _ _ _) Hb att Hin) as H.
    rewrite (Hany att Hin), compare_any_source in H.
    destruct (flags_wildcards VALUE_NULL (get_value M att)); [| reflexivity].
    destruct H as [H | H]; discriminate.
  - intros H.
    enough (E : cpe_superset VALUE_NULL wfn_part_keys wfn M = Ok true)
      by (rewrite Hb in E; now injection E).
    apply cpe_superset_true_iff. intros att Hin.
    rewrite (Hany att Hin), compare_any_source, (H att Hin).
    destruct (String.eqb VALUE_ANY_VALUE _); auto.
Qed.

End IdentifierMore.

Lemma cpe_superset_any_pattern_witness :
  exists b,
    cpe_superset "" Sample.keys (Sample.wfn "wfn:[]" []) Sample.ie_8_0_6 = Ok b
    /\ (b = true <->
        forall att, att ∈ Sample.keys ->
          flags_wildcards "" (get_value Sample.ie_8_0_6 att) = false).
Proof.
  apply (cpe_superset_any_pattern "" Sample.keys). intros att _. reflexivity.
Defined.

(** ** More on the collection *)

Lemma list_getitem_nonneg {A : Type} (l : list A) (i : nat) :
  list_getitem l (Z.of_nat i)
  = match l !! i with Some x => Ok x | None => Raise IndexError end.
Proof.
  unfold list_getitem.
  destruct (Z.ltb_spec (Z.of_nat i) 0); [lia |].
  destruct (Z.leb_spec 0 (Z.of_nat i)); [| lia]. rewrite Nat2Z.id.
  destruct (Z.ltb_spec (Z.of_nat i) (Z.of_nat (length l))); cbn [andb];
    [reflexivity |].
  rewrite lookup_ge_None_2 by lia. reflexivity.
Qed.

Section CollectionMore.

Variable VERSION_2_3 : string.
Variable STYLE_WFN : string.

(** What [append] leaves: the element is added when it passes both
    checks and is not stored yet. *)
Lemma append_accepted (self : CPESet2_3) (cpe : CPE) :
  fst (append VERSION_2_3 STYLE_WFN cpe self)
  = if String.eqb (version cpe) VERSION_2_3
       && String.eqb (style cpe) STYLE_WFN
       && negb (already_stored cpe (K self))
    then {| K := K self ++ [cpe] |} else self.
Proof.
  rewrite append_eq.
  destruct (String.eqb (version cpe) VERSION_2_3); [| reflexivity].
  destruct (String.eqb (style cpe) STYLE_WFN); [| reflexivity].
  destruct (already_stored cpe (K self)); reflexivity.
Qed.

(** X19.  [append] only ever adds at the end: the members stored before
    the call are still there, at the same positions, and the size grows
    by one when the element has the accepted version and style and a
    string form not stored yet, and not at all otherwise. *)
Theorem append_keeps_members (self : CPESet2_3) (cpe : CPE) :
  (forall (i : nat) (k : CPE),
     K self !! i = Some k ->
     K (fst (append VERSION_2_3 STYLE_WFN cpe self)) !! i = Some k)
  /\ size (fst (append VERSION_2_3 STYLE_WFN cpe self))
     = size self
       + (if String.eqb (version cpe) VERSION_2_3
             && String.eqb (style cpe) STYLE_WFN
             && negb (already_stored cpe (K self))
          then 1 else 0).
Proof.
  rewrite append_accepted.
  destruct (_ && _ && _); [| split; [auto | lia]].
  unfold size. cbn [K]. split.
  - intros i k H. apply lookup_app_l_Some, H.
  - rewrite length_app. simpl. lia.
Qed.

(** X20.  [append] keeps a collection well formed: every member has the
    accepted version and style, and no two members have the same string
    form. *)
Theorem append_well_formed (self : CPESet2_3) (cpe : CPE) :
  well_formed VERSION_2_3 STYLE_WFN self ->
  well_formed VERSION_2_3 STYLE_WFN (fst (append VERSION_2_3 STYLE_WFN cpe self)).
Proof.
  intros [Hconf Hnodup]. rewrite append_accepted.
  destruct (String.eqb_spec (version cpe) VERSION_2_3) as [Hv | _]; [| now split].
  destruct (String.eqb_spec (style cpe) STYLE_WFN) as [Hs | _]; [| now split].
  destruct (already_stored cpe (K self)) eqn:Hdup; [now split |].
  cbn [negb andb]. split; cbn [K].
  - intros k Hin. apply elem_of_app in Hin as [Hin | Hin]; [now apply Hconf |].
    apply list_elem_of_singleton in Hin as ->. now split.
  - rewrite fmap_app. apply NoDup_app. split; [exact Hnodup |]. split.
    + intros s Hin Hin'. apply list_elem_of_singleton in Hin' as ->.
      apply list_elem_of_fmap in Hin as (k & Hk & Hin).
      assert (already_stored cpe (K self) = true)
        by (apply already_stored_iff; eauto).
      congruence.
    + apply NoDup_singleton.
Qed.

(** X21.  After an element is added, it is the last member: indexing
    the collection at its former size, or at [-1], returns it; the
    members before it keep their indices; and the index after it is out
    of range. *)
Theorem getitem_after_append (self : CPESet2_3) (cpe : CPE) :
  version cpe = VERSION_2_3 ->
  style cpe = STYLE_WFN ->
  already_stored cpe (K self) = false ->
  let self' := fst (append VERSION_2_3 STYLE_WFN cpe self) in
  __getitem__ self' (size self) = Ok cpe
  /\ __getitem__ self' (-1) = Ok cpe
  /\ (forall i, 0 <= i < size self -> __getitem__ self' i = __getitem__ self i)
  /\ __getitem__ self' (size self + 1) = Raise IndexError.
Proof.
  intros Hv Hs Hdup. cbv zeta. rewrite append_accepted.
  apply String.eqb_eq in Hv, Hs. rewrite Hv, Hs, Hdup. cbn [negb andb].
  unfold __getitem__, size. cbn [K].
  split; [| split; [| split]].
  - rewrite list_getitem_nonneg, lookup_app_r by lia.
    rewrite Nat.sub_diag. reflexivity.
  - unfold list_getitem. rewrite length_app. cbn [length].
    change (-1 <? 0) with true. cbv iota.
    replace (-1 + Z.of_nat (length (K self) + 1)) with (Z.of_nat (length (K self)))
      by lia.
    destruct (Z.leb_spec 0 (Z.of_nat (length (K self)))); [| lia].
    destruct (Z.ltb_spec (Z.of_nat (length (K self)))
                (Z.of_nat (length (K self) + 1))); [| lia].
    cbn [andb]. rewrite Nat2Z.id, lookup_app_r by lia.
    rewrite Nat.sub_diag. reflexivity.
  - intros i Hi. rewrite <- (Z2Nat.id i) by lia. rewrite !list_getitem_nonneg.
    rewrite lookup_app_l by lia. reflexivity.
  - replace (Z.of_nat (length (K self)) + 1)
      with (Z.of_nat (length (K self) + 1)) by lia.
    rewrite list_getitem_nonneg, lookup_ge_None_2;
      [reflexivity | rewrite length_app; simpl; lia].
Qed.

End CollectionMore.

Lemma append_well_formed_witness :
  well_formed "2.3" "WFN" init
  /\ well_formed "2.3" "WFN" (fst (append "2.3" "WFN" Sample.ie_8_0_6 init)).
Proof.
  assert (H : well_formed "2.3" "WFN" init).
  { split; [| constructor]. intros k Hin. apply elem_of_nil in Hin. destruct Hin. }
  split; [exact H |].
  apply (append_well_formed "2.3" "WFN" init Sample.ie_8_0_6 H).
Defined.

Lemma getitem_after_append_witness :
  let self' := fst (append "2.3" "WFN" Sample.windows_8
                      {| K := [Sample.ie_8_0_6] |}) in
  __getitem__ self' (size {| K := [Sample.ie_8_0_6] |}) = Ok Sample.windows_8
  /\ __getitem__ self' (-1) = Ok Sample.windows_8
  /\ (forall i, 0 <= i < size {| K := [Sample.ie_8_0_6] |} ->
        __getitem__ self' i = __getitem__ {| K := [Sample.ie_8_0_6] |} i)
  /\ __getitem__ self' (size {| K := [Sample.ie_8_0_6] |} + 1) = Raise IndexError.
Proof.
  apply (getitem_after_append "2.3" "WFN" {| K := [Sample.ie_8_0_6] |}
           Sample.windows_8); reflexivity.
Defined.

Section MatchMore.

Variable VALUE_NULL : string.
Variable wfn_part_keys : list string.
Variable VERSION_2_3 : string.
Variable STYLE_WFN : string.

Lemma name_match_loop_any (wfn : CPE) (ks : list CPE) :
  exists b,
    name_match_loop VALUE_NULL wfn_part_keys wfn ks = Ok b
    /\ (b = true <->
        exists M, M ∈ ks /\ cpe_superset VALUE_NULL wfn_part_keys wfn M = Ok true).
Proof.
  induction ks as [| N ks IH].
  - exists false. split; [reflexivity |]. split; [discriminate |].
    intros (M & H & _). apply elem_of_nil in H. destruct H.
  - cbn [name_match_loop].
    destruct (cpe_superset_total VALUE_NULL wfn_part_keys wfn N) as [[] HN];
      rewrite HN; cbn [bind].
    + exists true. split; [reflexivity |]. split; [intros _ | reflexivity].
      exists N. split; [apply elem_of_cons; now left | exact HN].
    + destruct IH as (b & Hb & Hiff). exists b. split; [exact Hb |].
      rewrite Hiff. split.
      * intros (M & Hin & HM). exists M.
        split; [apply elem_of_cons; now right | exact HM].
      * intros (M & Hin & HM). apply elem_of_cons in Hin as [-> | Hin].
        -- rewrite HN in HM. discriminate.
        -- exists M. split; assumption.
Qed.

Lemma name_match_true_iff (self : CPESet2_3) (wfn : CPE) :
  name_match VALUE_NULL wfn_part_keys self wfn = Ok true
  <-> exists M, M ∈ K self
                /\ cpe_superset VALUE_NULL wfn_part_keys wfn M = Ok true.
Proof.
  unfold name_match. destruct (name_match_loop_any wfn (K self)) as (b & -> & Hiff).
  rewrite <- Hiff. split; [intros E; now injection E | intros ->; reflexivity].
Qed.

Lemma append_members (self : CPESet2_3) (cpe M : CPE) :
  M ∈ K self -> M ∈ K (fst (append VERSION_2_3 STYLE_WFN cpe self)).
Proof.
  rewrite append_eq.
  destruct (negb _); [auto |]. destruct (negb _); [auto |].
  destruct (already_stored _ _); [auto |]. cbn [fst K].
  intros H. apply elem_of_app. now left.
Qed.

(** X22.  Adding to the collection never loses a match: a candidate that
    [name_match] accepts is still accepted after any [append], whether
    the append adds its element, finds it stored, or raises. *)
Theorem name_match_after_append (self : CPESet2_3) (cpe wfn : CPE) :
  name_match VALUE_NULL wfn_part_keys self wfn = Ok true ->
  name_match VALUE_NULL wfn_part_keys
    (fst (append VERSION_2_3 STYLE_WFN cpe self)) wfn = Ok true.
Proof.
  rewrite !name_match_true_iff. intros (M & Hin & HM).
  exists M. split; [apply append_members, Hin | exact HM].
Qed.

(** X23.  Once an element is added, every candidate that is a superset
    of it matches the collection. *)
Theorem name_match_added_element (self : CPESet2_3) (cpe wfn : CPE) :
  version cpe = VERSION_2_3 ->
  style cpe = STYLE_WFN ->
  already_stored cpe (K self) = false ->
  cpe_superset VALUE_NULL wfn_part_keys wfn cpe = Ok true ->
  name_match VALUE_NULL wfn_part_keys
    (fst (append VERSION_2_3 STYLE_WFN cpe self)) wfn = Ok true.
Proof.
  intros Hv Hs Hdup Hsup. apply name_match_true_iff. exists cpe.
  split; [| exact Hsup]. rewrite append_eq.
  apply String.eqb_eq in Hv, Hs. rewrite Hv, Hs, Hdup. cbn [negb fst K].
  apply elem_of_app. right. apply elem_of_cons. now left.
Qed.

(** X24.  A candidate matches a collection that holds a member with the
    same attribute values, provided none of these values is flagged for
    wildcards. *)
Theorem name_match_same_values (self : CPESet2_3) (wfn M : CPE) :
  M ∈ K self ->
  (forall att, att ∈ wfn_part_keys ->
     get_value wfn att = get_value M att
     /\ flags_wildcards VALUE_NULL (get_value M att) = false) ->
  name_match VALUE_NULL wfn_part_keys self wfn = Ok true.
Proof.
  intros Hin Hsame. apply name_match_true_iff. exists M. split; [exact Hin |].
  apply cpe_superset_true_iff. intros att Hatt. right.
  destruct (Hsame att Hatt) as [-> Hf]. apply compare_equal_iff. auto.
Qed.

(** X25.  The answer of [name_match] does not depend on the order in
    which the members are stored. *)
Theorem name_match_permutation (self1 self2 : CPESet2_3) (wfn : CPE) :
  K self1 ≡ₚ K self2 ->
  name_match VALUE_NULL wfn_part_keys self1 wfn
  = name_match VALUE_NULL wfn_part_keys self2 wfn.
Proof.
  intros Hperm.
  assert (Hiff : name_match VALUE_NULL wfn_part_keys self1 wfn = Ok true
                 <-> name_match VALUE_NULL wfn_part_keys self2 wfn = Ok true).
  { rewrite !name_match_true_iff. split; intros (M & Hin & HM); exists M;
      (split; [| exact HM]); [rewrite <- Hperm | rewrite Hperm]; exact Hin. }
  unfold name_match in *.
  destruct (name_match_loop_any wfn (K self1)) as (b1 & H1 & _).
  destruct (name_match_loop_any wfn (K self2)) as (b2 & H2 & _).
  rewrite H1, H2 in *. f_equal.
  destruct b1, b2; try reflexivity.
  - destruct Hiff as [Ha _]. specialize (Ha eq_refl). discriminate.
  - destruct Hiff as [_ Hb]. specialize (Hb eq_refl). discriminate.
Qed.

End MatchMore.

Lemma name_match_after_append_witness :
  name_match "" Sample.keys {| K := [Sample.ie_8_0_6] |} Sample.microsoft_app
  = Ok true
  /\ name_match "" Sample.keys
       (fst (append "2.3" "WFN" Sample.windows_8 {| K := [Sample.ie_8_0_6] |}))
       Sample.microsoft_app = Ok true.
Proof.
  assert (H : name_match "" Sample.keys {| K := [Sample.ie_8_0_6] |}
                Sample.microsoft_app = Ok true) by (vm_compute; reflexivity).
  split; [exact H |].
  exact (name_match_after_append "" Sample.keys "2.3" "WFN" _ Sample.windows_8 _ H).
Defined.

Lemma name_match_added_element_witness :
  name_match "" Sample.keys
    (fst (append "2.3" "WFN" Sample.ie_8_0_6 init)) Sample.ie_8_0_any = Ok true.
Proof.
  apply (name_match_added_element "" Sample.keys "2.3" "WFN" init Sample.ie_8_0_6);
    vm_compute; reflexivity.
Defined.

Lemma name_match_same_values_witness :
  name_match "" Sample.keys {| K := [Sample.ie_8_0_6; Sample.windows_8] |}
    Sample.windows_8 = Ok true.
Proof.
  apply (name_match_same_values "" Sample.keys _ _ Sample.windows_8).
  - apply elem_of_cons. right. apply elem_of_cons. now left.
  - intros att Hin. split; [reflexivity |]. unfold Sample.keys in Hin.
    repeat (apply elem_of_cons in Hin as [-> | Hin]; [vm_compute; reflexivity |]).
    apply elem_of_nil in Hin. destruct Hin.
Defined.

Lemma name_match_permutation_witness :
  name_match "" Sample.keys {| K := [Sample.ie_8_0_6; Sample.windows_8] |}
    Sample.ie_8_0_any
  = name_match "" Sample.keys {| K := [Sample.windows_8; Sample.ie_8_0_6] |}
      Sample.ie_8_0_any.
Proof.
  apply (name_match_permutation "" Sample.keys). cbn [K]. apply perm_swap.
Defined.
